(** * The Pi Cycle indicator engine of [2-pi-cycle-indicator.cpp]

    A shallow embedding of the rolling-statistics engine
    ([price_projection], [add_calculated_fields]), of the row colouring and
    the table rows of [display_public], of [format_numeric] and of the
    projector [prediction_target_step].

    The C++ program computes on [double].  The embedding is written once,
    over an interface [DoubleOps] of the operations the source applies to
    doubles, the library call [std::pow(x, 2)] among them.  The arithmetic
    the program runs on is [binary64 pow2]: the kernel's binary64 floats,
    with the squaring function of the mathematical library as a parameter;
    concrete inputs are evaluated with the correctly rounded square.  The
    real numbers are a second instance, without rounding: they are used
    for the rows without a window only, where no operation rounds.

    A [std::vector] is a list; [v[i]] is a checked lookup, so that an index
    out of range (undefined behaviour in C++) makes the embedded function
    return [None]. *)

From Stdlib Require Import String Ascii.
From Stdlib Require Import List Arith ZArith QArith Lia Bool.
From Stdlib Require Import Floats.
From Stdlib Require Import Reals Lra.
Import ListNotations.

Close Scope Q_scope.
Open Scope nat_scope.

(** ** Arithmetic on [double] *)

(** The operations of [double] that the source uses.  [d_of_Q] reads a
    numeric literal ([365.0], [0.02], ...).  [d_pow2 x] is [std::pow(x, 2)],
    a call into the mathematical library: what it returns is the library's
    choice, and it need not be the correctly rounded square [x * x]. *)
Class DoubleOps (D : Type) : Type := {
  d_of_Q : Q -> D;
  d_add : D -> D -> D;
  d_sub : D -> D -> D;
  d_mul : D -> D -> D;
  d_div : D -> D -> D;
  d_sqrt : D -> D;
  d_pow2 : D -> D;
  d_abs : D -> D;
  d_eqb : D -> D -> bool;
  d_ltb : D -> D -> bool;
  d_leb : D -> D -> bool
}.

(** The conversion of an [int] or a [long long] to [double]. *)
Definition d_of_Z {D : Type} {ops : DoubleOps D} (z : Z) : D := d_of_Q (inject_Z z).

Declare Scope dbl_scope.
Delimit Scope dbl_scope with dbl.
Infix "+" := d_add : dbl_scope.
Infix "-" := d_sub : dbl_scope.
Infix "*" := d_mul : dbl_scope.
Infix "/" := d_div : dbl_scope.
Notation "x == y" := (d_eqb x y) (at level 70, no associativity) : dbl_scope.
Notation "x != y" := (negb (d_eqb x y)) (at level 70, no associativity) : dbl_scope.
Notation "x < y" := (d_ltb x y) : dbl_scope.
Notation "x <= y" := (d_leb x y) : dbl_scope.
Notation "x > y" := (d_ltb y x) : dbl_scope.
Notation "x >= y" := (d_leb y x) : dbl_scope.

(** ** The error monad of checked vector accesses *)

Definition bind {A B : Type} (m : option A) (f : A -> option B) : option B :=
  match m with
  | Some a => f a
  | None => None
  end.

Notation "x <- m ;; k" := (bind m (fun x => k))
  (at level 61, m at next level, right associativity).

(** [for (i = lo; i < lo + n; ++i) s = body(i, s)]. *)
Fixpoint for_loop {St : Type} (n lo : nat) (body : nat -> St -> option St) (s : St)
  : option St :=
  match n with
  | O => Some s
  | S n' => s' <- body lo s ;; for_loop n' (S lo) body s'
  end.

(** [for (i = lo; i < hi; ++i)]. *)
Definition for_range {St : Type} (lo hi : nat) (body : nat -> St -> option St) (s : St)
  : option St :=
  for_loop (hi - lo) lo body s.

(** [v[i] = x] on a list; the list is unchanged when [i] is out of range
    (the callers below only write where they have just read). *)
Fixpoint update {A : Type} (i : nat) (x : A) (l : list A) : list A :=
  match l, i with
  | [], _ => []
  | _ :: t, O => x :: t
  | h :: t, S i' => h :: update i' x t
  end.

(** [v[i].field = ...]: read row [i], write it back changed by [f]. *)
Definition assign {A : Type} (v : list A) (i : nat) (f : A -> A) : option (list A) :=
  r <- nth_error v i ;; Some (update i (f r) v).

(** The invariant of a loop whose iteration [i] rewrites row [i] only: when
    [i] is reached the rows below [i] hold their final value [spec k r] and
    the others their original one. *)
Definition done_upto {A : Type} (spec : nat -> A -> A) (i : nat) (orig cur : list A)
  : Prop :=
  length cur = length orig /\
  forall k r, nth_error orig k = Some r ->
    nth_error cur k = Some (if k <? i then spec k r else r).

(** ** Data structures *)

Section Engine.

Context {D : Type} {ops : DoubleOps D}.

Local Open Scope dbl_scope.

Notation "0.0" := (d_of_Q 0) : dbl_scope.

(** [struct Kline]. *)
Record Kline : Type := mkKline {
  k_date : string;
  k_price : D
}.

(** [struct PiCycleData]. *)
Record PiCycleData : Type := mkPiCycleData {
  date : string;
  price : D;
  ma_365 : D;
  std_365 : D;
  ceiling : D;
  floor : D;
  median : D;
  dynamic_step : D;
  step : D;
  change : D;
  move : D;
  offset : D;
  weeks_52 : D
}.

(** A value-initialised [PiCycleData]: every member is zero. *)
Definition default_row : PiCycleData :=
  mkPiCycleData EmptyString 0.0 0.0 0.0 0.0 0.0 0.0 0.0 0.0 0.0 0.0 0.0 0.0.

Definition set_date (v : string) (r : PiCycleData) : PiCycleData :=
  mkPiCycleData v (price r) (ma_365 r) (std_365 r) (ceiling r) (floor r)
    (median r) (dynamic_step r) (step r) (change r) (move r) (offset r) (weeks_52 r).
Definition set_price (v : D) (r : PiCycleData) : PiCycleData :=
  mkPiCycleData (date r) v (ma_365 r) (std_365 r) (ceiling r) (floor r)
    (median r) (dynamic_step r) (step r) (change r) (move r) (offset r) (weeks_52 r).
Definition set_ma_365 (v : D) (r : PiCycleData) : PiCycleData :=
  mkPiCycleData (date r) (price r) v (std_365 r) (ceiling r) (floor r)
    (median r) (dynamic_step r) (step r) (change r) (move r) (offset r) (weeks_52 r).
Definition set_std_365 (v : D) (r : PiCycleData) : PiCycleData :=
  mkPiCycleData (date r) (price r) (ma_365 r) v (ceiling r) (floor r)
    (median r) (dynamic_step r) (step r) (change r) (move r) (offset r) (weeks_52 r).
Definition set_ceiling (v : D) (r : PiCycleData) : PiCycleData :=
  mkPiCycleData (date r) (price r) (ma_365 r) (std_365 r) v (floor r)
    (median r) (dynamic_step r) (step r) (change r) (move r) (offset r) (weeks_52 r).
Definition set_floor (v : D) (r : PiCycleData) : PiCycleData :=
  mkPiCycleData (date r) (price r) (ma_365 r) (std_365 r) (ceiling r) v
    (median r) (dynamic_step r) (step r) (change r) (move r) (offset r) (weeks_52 r).
Definition set_median (v : D) (r : PiCycleData) : PiCycleData :=
  mkPiCycleData (date r) (price r) (ma_365 r) (std_365 r) (ceiling r) (floor r)
    v (dynamic_step r) (step r) (change r) (move r) (offset r) (weeks_52 r).
Definition set_dynamic_step (v : D) (r : PiCycleData) : PiCycleData :=
  mkPiCycleData (date r) (price r) (ma_365 r) (std_365 r) (ceiling r) (floor r)
    (median r) v (step r) (change r) (move r) (offset r) (weeks_52 r).
Definition set_step (v : D) (r : PiCycleData) : PiCycleData :=
  mkPiCycleData (date r) (price r) (ma_365 r) (std_365 r) (ceiling r) (floor r)
    (median r) (dynamic_step r) v (change r) (move r) (offset r) (weeks_52 r).
Definition set_change (v : D) (r : PiCycleData) : PiCycleData :=
  mkPiCycleData (date r) (price r) (ma_365 r) (std_365 r) (ceiling r) (floor r)
    (median r) (dynamic_step r) (step r) v (move r) (offset r) (weeks_52 r).
Definition set_move (v : D) (r : PiCycleData) : PiCycleData :=
  mkPiCycleData (date r) (price r) (ma_365 r) (std_365 r) (ceiling r) (floor r)
    (median r) (dynamic_step r) (step r) (change r) v (offset r) (weeks_52 r).
Definition set_offset (v : D) (r : PiCycleData) : PiCycleData :=
  mkPiCycleData (date r) (price r) (ma_365 r) (std_365 r) (ceiling r) (floor r)
    (median r) (dynamic_step r) (step r) (change r) (move r) v (weeks_52 r).
Definition set_weeks_52 (v : D) (r : PiCycleData) : PiCycleData :=
  mkPiCycleData (date r) (price r) (ma_365 r) (std_365 r) (ceiling r) (floor r)
    (median r) (dynamic_step r) (step r) (change r) (move r) (offset r) v.

(** ** The Window Statistics Engine *)

(** [price_projection]: one row per kline; from index 364 on, the trailing
    365-sample mean, standard deviation and the band. *)
Definition price_projection (klines : list Kline) (yearly_multiplier : D)
  : option (list PiCycleData) :=
  let pi_data := repeat default_row (length klines) in
  for_range 0 (length klines) (fun i pi_data =>
    k <- nth_error klines i ;;
    pi_data <- assign pi_data i (set_date (k_date k)) ;;
    pi_data <- assign pi_data i (set_price (k_price k)) ;;
    if 364 <=? i then
      sum_price <- for_range (i - 364) (S i) (fun j sum_price =>
        kj <- nth_error klines j ;;
        Some (sum_price + k_price kj)) 0.0 ;;
      pi_data <- assign pi_data i (set_ma_365 (sum_price / d_of_Q 365)) ;;
      sum_sq_diff <- for_range (i - 364) (S i) (fun j sum_sq_diff =>
        kj <- nth_error klines j ;;
        ri <- nth_error pi_data i ;;
        Some (sum_sq_diff + d_pow2 (k_price kj - ma_365 ri))) 0.0 ;;
      pi_data <- assign pi_data i (set_std_365 (d_sqrt (sum_sq_diff / d_of_Q 365))) ;;
      pi_data <- assign pi_data i
        (fun r => set_ceiling (ma_365 r + (d_of_Z 2 * std_365 r)) r) ;;
      pi_data <- assign pi_data i (fun r => set_floor (ma_365 r) r) ;;
      assign pi_data i (fun r => set_median ((ceiling r + floor r) / d_of_Q 2) r)
    else Some pi_data) pi_data.

(** *** Reference formulas for the window statistics *)

(** The prices of rows [i-364 .. i]. *)
Definition window (klines : list Kline) (i : nat) : list D :=
  map k_price (firstn 365 (skipn (i - 364) klines)).

(** The sum of a sequence, accumulated from [0.0] in index order. *)
Definition sum (l : list D) : D := fold_left d_add l 0.0.

(** The sum of the squared deviations from [m], each squared by
    [std::pow(x, 2)]. *)
Definition sum_sq_dev (m : D) (l : list D) : D :=
  fold_left (fun acc p => acc + d_pow2 (p - m)) l 0.0.

Definition mean365 (w : list D) : D := sum w / d_of_Q 365.

(** The population standard deviation: the divisor is 365. *)
Definition stddev365 (w : list D) : D :=
  d_sqrt (sum_sq_dev (mean365 w) w / d_of_Q 365).

(** Row [i] as the Window Statistics Engine leaves it. *)
Definition stats_row (klines : list Kline) (i : nat) (k : Kline) : PiCycleData :=
  let r := set_price (k_price k) (set_date (k_date k) default_row) in
  if 364 <=? i then
    let ma := mean365 (window klines i) in
    let sd := stddev365 (window klines i) in
    let c := ma + d_of_Z 2 * sd in
    set_median ((c + ma) / d_of_Q 2)
      (set_floor ma (set_ceiling c (set_std_365 sd (set_ma_365 ma r))))
  else r.

(** ** The Derived Field Calculator *)

(** The four loops of [add_calculated_fields], named after the comments
    that introduce them in the source. *)

(** "Calculate daily price changes". *)
Definition calc_daily_changes (pi_data : list PiCycleData) : option (list PiCycleData) :=
  for_range 1 (length pi_data) (fun i pi_data =>
    ri <- nth_error pi_data i ;;
    rp <- nth_error pi_data (i - 1) ;;
    pi_data <- assign pi_data i (set_change (price ri - price rp)) ;;
    rp <- nth_error pi_data (i - 1) ;;
    if price rp != d_of_Z 0 then
      ri <- nth_error pi_data i ;;
      rp <- nth_error pi_data (i - 1) ;;
      assign pi_data i (set_move ((price ri - price rp) / price rp * d_of_Q 100))
    else Some pi_data) pi_data.

(** "Calculate dynamic step (simplified: rolling average of daily changes)". *)
Definition calc_dynamic_step (pi_data : list PiCycleData) : option (list PiCycleData) :=
  let lookback_days_for_step := 364 in
  for_range 0 (length pi_data) (fun i pi_data =>
    pi_data <-
      (if lookback_days_for_step <=? i then
         sum_daily_diff <- for_range 0 lookback_days_for_step (fun j sum_daily_diff =>
           r <- nth_error pi_data (i - j) ;;
           Some (sum_daily_diff + change r)) 0.0 ;;
         assign pi_data i
           (set_dynamic_step (sum_daily_diff / d_of_Z (Z.of_nat lookback_days_for_step)))
       else Some pi_data) ;;
    assign pi_data i (fun r => set_step (dynamic_step r) r)) pi_data.

(** "Calculate Offset - distance from MEDIAN as percentage". *)
Definition calc_offset (pi_data : list PiCycleData) : option (list PiCycleData) :=
  for_range 0 (length pi_data) (fun i pi_data =>
    ri <- nth_error pi_data i ;;
    if median ri != d_of_Z 0 then
      assign pi_data i
        (fun r => set_offset (((price r - median r) / median r) * d_of_Q 100) r)
    else Some pi_data) pi_data.

(** "Calculate actual 364-day price percentage change". *)
Definition calc_weeks_52 (pi_data : list PiCycleData) : option (list PiCycleData) :=
  for_range 0 (length pi_data) (fun i pi_data =>
    if 364 <=? i then
      r0 <- nth_error pi_data (i - 364) ;;
      if price r0 != d_of_Z 0 then
        ri <- nth_error pi_data i ;;
        r0 <- nth_error pi_data (i - 364) ;;
        assign pi_data i
          (set_weeks_52 (((price ri - price r0) / price r0) * d_of_Q 100))
      else Some pi_data
    else Some pi_data) pi_data.

Definition add_calculated_fields (pi_data : list PiCycleData) (num_display_days : nat)
  : option (list PiCycleData) :=
  pi_data <- calc_daily_changes pi_data ;;
  pi_data <- calc_dynamic_step pi_data ;;
  pi_data <- calc_offset pi_data ;;
  calc_weeks_52 pi_data.

(** The engine as [main] runs it: the Window Statistics Engine, then the
    Derived Field Calculator. *)
Definition engine (klines : list Kline) (yearly_multiplier : D) (num_display_days : nat)
  : option (list PiCycleData) :=
  pi_data <- price_projection klines yearly_multiplier ;;
  add_calculated_fields pi_data num_display_days.

(** *** Reference formulas for the derived fields *)

(** The price of the row [n] places before row [i], when there is one. *)
Definition price_back (l : list PiCycleData) (n i : nat) : option D :=
  if n <=? i then option_map price (nth_error l (i - n)) else None.

(** [change] and [movePct] of a row whose predecessor has price [prev]. *)
Definition change_row (prev : option D) (r : PiCycleData) : PiCycleData :=
  match prev with
  | None => r
  | Some p =>
      let r1 := set_change (price r - p) r in
      if p != d_of_Z 0 then set_move ((price r - p) / p * d_of_Q 100) r1 else r1
  end.

(** The stored changes of rows [i-363 .. i]. *)
Definition changes (l : list PiCycleData) (i : nat) : list D :=
  map change (firstn 364 (skipn (i - 363) l)).

(** [dynamicStep] and [step] of row [i]; the changes are accumulated from
    row [i] backwards. *)
Definition step_row (l : list PiCycleData) (i : nat) (r : PiCycleData) : PiCycleData :=
  let r1 :=
    if 364 <=? i then set_dynamic_step (sum (rev (changes l i)) / d_of_Z 364) r else r in
  set_step (dynamic_step r1) r1.

Definition offset_row (r : PiCycleData) : PiCycleData :=
  if median r != d_of_Z 0
  then set_offset (((price r - median r) / median r) * d_of_Q 100) r
  else r.

(** The percentage [(x - y) / y * 100], or [z] when [y] is zero. *)
Definition pct_or (z x y : D) : D :=
  if y != d_of_Z 0 then ((x - y) / y) * d_of_Q 100 else z.

(** [yoyPct] of a row, [back] being the price 364 rows earlier. *)
Definition weeks_52_row (back : option D) (r : PiCycleData) : PiCycleData :=
  match back with
  | None => r
  | Some p =>
      if p != d_of_Z 0 then set_weeks_52 (((price r - p) / p) * d_of_Q 100) r else r
  end.

(** The daily change the first loop stores in row [m >= 1]: the price of the
    row less the price of the row before. *)
Definition change_at (klines : list Kline) (m : nat) : option D :=
  match nth_error klines m, nth_error klines (m - 1) with
  | Some a, Some b => Some (k_price a - k_price b)
  | _, _ => None
  end.

(** ** The row colouring of [display_public] *)

Inductive Color : Type :=
  | COLOR_BRIGHT_GREEN
  | COLOR_GREEN
  | COLOR_DARK_GREEN
  | COLOR_YELLOW_GREEN
  | COLOR_YELLOW
  | COLOR_YELLOW_RED
  | COLOR_DARK_RED
  | COLOR_RED
  | COLOR_BRIGHT_RED
  | COLOR_RESET.

(** The body of the [for (const auto& row : pi_data_reversed)] loop up to
    the choice of [row_color]. *)
Definition row_color (row : PiCycleData) : Color :=
  let median_threshold := median row * d_of_Q 0.02 in
  if d_abs (price row - median row) <= median_threshold then
    if price row > median row then COLOR_YELLOW_GREEN
    else if price row < median row then COLOR_YELLOW_RED
    else COLOR_YELLOW
  else if price row >= median row then
    let range_above := ceiling row - median row in
    let percentage_above :=
      if range_above > d_of_Z 0 then (price row - median row) / range_above else 0.0 in
    if percentage_above >= d_of_Q 0.575 then COLOR_BRIGHT_GREEN
    else if percentage_above >= d_of_Q 0.29 then COLOR_GREEN
    else COLOR_DARK_GREEN
  else
    let range_below := median row - floor row in
    let percentage_below :=
      if range_below > d_of_Z 0 then (median row - price row) / range_below else 0.0 in
    if percentage_below >= d_of_Q 0.575 then COLOR_BRIGHT_RED
    else if percentage_below >= d_of_Q 0.29 then COLOR_RED
    else COLOR_DARK_RED.


Definition percentage_above (row : PiCycleData) : D :=
  let range_above := ceiling row - median row in
  if range_above > d_of_Z 0 then (price row - median row) / range_above else 0.0.

Definition percentage_below (row : PiCycleData) : D :=
  let range_below := median row - floor row in
  if range_below > d_of_Z 0 then (median row - price row) / range_below else 0.0.

(** The global variables of the program. *)
Record Globals : Type := mkGlobals {
  first_row_yearly_value : D;
  first_row_baseline : D;
  first_row_avg_price : D;
  first_row_step : D
}.

(** The globals at program start. *)
Definition initial_globals : Globals := mkGlobals 0.0 0.0 0.0 0.0.

(** [display_public]: records the first row in the globals and prints one
    coloured line per row; the printed table is represented by the colours. *)
Definition display_public (g : Globals) (pi_data_reversed : list PiCycleData)
  : Globals * list Color :=
  let g :=
    match pi_data_reversed with
    | first_row :: _ =>
        mkGlobals (weeks_52 first_row) (median first_row) (price first_row)
          (step first_row)
    | [] => g
    end in
  (g, map row_color pi_data_reversed).

(** ** The projector *)

(** [for (i = lo; cond(i); ++i)], for a condition that fails within [fuel]
    iterations. *)
Fixpoint for_while {St : Type} (fuel lo : nat) (cond : nat -> bool)
  (body : nat -> St -> option St) (s : St) : option St :=
  match fuel with
  | O => Some s
  | S fuel' =>
      if cond lo then s' <- body lo s ;; for_while fuel' (S lo) cond body s'
      else Some s
  end.

(** What [prediction_target_step] prints. *)
Record Prediction : Type := mkPrediction {
  average_top_steps : D;
  predicted_price_2025 : D;
  predicted_price_4w : D
}.

(** [prediction_target_step]; [now_c] and [end_2025_t] are the two [time_t]
    values the source obtains from the clock and from [mktime]. *)
Definition prediction_target_step (g : Globals) (pi_data_reversed : list PiCycleData)
  (now_c end_2025_t : Z) : option Prediction :=
  let RANGE := 30 in
  st <- for_while RANGE 0
    (fun i => (i <? RANGE) && (i <? length pi_data_reversed))
    (fun i st =>
       r <- nth_error pi_data_reversed i ;;
       Some (fst st + step r, (snd st + 1)%Z)) (0.0, 0%Z) ;;
  let sum_top_steps := fst st in
  let count_top_steps := snd st in
  let average_top_steps :=
    if (count_top_steps >? 0)%Z then sum_top_steps / d_of_Z count_top_steps else 0.0 in
  let days_until_2025 := Z.quot (end_2025_t - now_c) (60 * 60 * 24) in
  let predicted_price_2025 :=
    first_row_baseline g + (average_top_steps * d_of_Z days_until_2025) in
  let predicted_price_4w :=
    first_row_baseline g + (average_top_steps * d_of_Z (Z.of_nat RANGE)) in
  Some (mkPrediction average_top_steps predicted_price_2025 predicted_price_4w).

(** ** The program *)

(** What a run shows: the rows of the engine, the colours of the displayed
    rows and the projection. *)
Record Report : Type := mkReport {
  rep_rows : list PiCycleData;
  rep_colors : list Color;
  rep_prediction : Prediction
}.

(** [main] from the klines on: [None] is undefined behaviour, [Some (g, None)]
    the exit with status 1 on an empty series. *)
Definition main (g : Globals) (klines : list Kline) (num_display_days : nat)
  (avg_daily_increase : D) (now_c end_2025_t : Z)
  : option (Globals * option Report) :=
  let num_display_days := if num_display_days <? 33 then 33 else num_display_days in
  match klines with
  | [] => Some (g, None)
  | _ =>
      pi_data <- engine klines
        ((avg_daily_increase / d_of_Q 100) + d_of_Z 1) num_display_days ;;
      let pi_data_reversed :=
        rev (if num_display_days <? length pi_data
             then skipn (length pi_data - num_display_days) pi_data
             else pi_data) in
      let (g, colors) := display_public g pi_data_reversed in
      p <- prediction_target_step g pi_data_reversed now_c end_2025_t ;;
      Some (g, Some (mkReport pi_data colors p))
  end.

End Engine.

Arguments Kline D : clear implicits.
Arguments PiCycleData D : clear implicits.
Arguments Globals D : clear implicits.
Arguments Prediction D : clear implicits.
Arguments Report D : clear implicits.

(** ** The two arithmetics *)

(** Binary64, as the program runs it.  A literal [n/d] is the correctly
    rounded quotient of [n] and [d], the double nearest to it (numerator and
    denominator of every literal of the source are exact doubles).  The
    arithmetic operations and [sqrt] are those of IEEE 754; [std::pow(x, 2)]
    is the parameter [pow2], whatever function of [x] the library computes. *)
Definition float_of_Z (z : Z) : float :=
  SF2Prim (binary_normalize prec emax z 0 false).

Definition binary64 (pow2 : float -> float) : DoubleOps float := {|
  d_of_Q := fun q => PrimFloat.div (float_of_Z (Qnum q)) (float_of_Z (Zpos (Qden q)));
  d_add := PrimFloat.add;
  d_sub := PrimFloat.sub;
  d_mul := PrimFloat.mul;
  d_div := PrimFloat.div;
  d_sqrt := PrimFloat.sqrt;
  d_pow2 := pow2;
  d_abs := PrimFloat.abs;
  d_eqb := PrimFloat.eqb;
  d_ltb := PrimFloat.ltb;
  d_leb := PrimFloat.leb
|}.

(** Binary64 with a correctly rounded [std::pow(x, 2)], the double nearest to
    the square; concrete inputs are evaluated with it. *)
#[export] Instance float_ops : DoubleOps float :=
  binary64 (fun x => PrimFloat.mul x x).

(** Exact arithmetic on the reals. *)
#[export] Instance real_ops : DoubleOps R := {|
  d_of_Q := Q2R;
  d_add := Rplus;
  d_sub := Rminus;
  d_mul := Rmult;
  d_div := Rdiv;
  d_sqrt := sqrt;
  d_pow2 := fun x => Rmult x x;
  d_abs := Rabs;
  d_eqb := fun x y => if Req_dec_T x y then true else false;
  d_ltb := fun x y => if Rlt_dec x y then true else false;
  d_leb := fun x y => if Rle_dec x y then true else false
|}.

(** What the proofs below use of the arithmetic: a difference of two equal
    values is not positive, and zero is below the two intensity thresholds.
    Both hold of binary64 and of the reals. *)
Class DoubleLaws (D : Type) {ops : DoubleOps D} : Prop := {
  sub_eq_not_pos :
    forall x y : D, d_eqb x y = true -> d_ltb (d_of_Z 0) (d_sub x y) = false;
  zero_below_0_575 : d_leb (d_of_Q 0.575) (d_of_Q 0) = false;
  zero_below_0_29 : d_leb (d_of_Q 0.29) (d_of_Q 0) = false
}.

(** ** The nine-level zone scale *)

(** The nine ordered zones of the spec's scale, from the topmost to the
    bottommost; the source has the nine colours only. *)
Inductive Zone : Type :=
  | bright_high
  | high
  | mid_high
  | near_median_above
  | at_median
  | near_median_below
  | mid_low
  | low
  | bright_low.

(** The zone a row colour stands for; [COLOR_RESET] is the default that
    every branch of the colouring overwrites. *)
Definition zone_of_color (c : Color) : option Zone :=
  match c with
  | COLOR_BRIGHT_GREEN => Some bright_high
  | COLOR_GREEN => Some high
  | COLOR_DARK_GREEN => Some mid_high
  | COLOR_YELLOW_GREEN => Some near_median_above
  | COLOR_YELLOW => Some at_median
  | COLOR_YELLOW_RED => Some near_median_below
  | COLOR_DARK_RED => Some mid_low
  | COLOR_RED => Some low
  | COLOR_BRIGHT_RED => Some bright_low
  | COLOR_RESET => None
  end.



(** The Zone Classifier: the zone of the colour [display_public] gives a
    row. *)
Definition classify {D : Type} {ops : DoubleOps D} (row : PiCycleData D) : option Zone :=
  zone_of_color (row_color row).

(** ** Concrete inputs *)

(** The scenarios of the spec, on binary64: 366 days at 100.0; 364 days at
    100.0 and a day at 130.0; 364 days at 100.0. *)
Definition scenario_A : list (Kline float) :=
  repeat (mkKline EmptyString (d_of_Q 100)) 366.

Definition scenario_B : list (Kline float) :=
  repeat (mkKline EmptyString (d_of_Q 100)) 364 ++ [mkKline EmptyString (d_of_Q 130)].

Definition scenario_C : list (Kline float) :=
  repeat (mkKline EmptyString (d_of_Q 100)) 364.

(** The last row the engine returns. *)
Definition last_row (klines : list (Kline float)) : option (PiCycleData float) :=
  out <- engine klines (d_of_Q 1) 33 ;; nth_error out (length klines - 1).

(** The last row of scenario B, as the engine computes it. *)
Definition scenario_B_row : PiCycleData float :=
  Eval vm_compute in
    match last_row scenario_B with
    | Some r => r
    | None => default_row
    end.

(** Ten rows, most recent first, with steps 1 to 10 and median 100. *)
Definition ten_rows : list (PiCycleData float) :=
  map (fun z => set_median (d_of_Q 100) (set_step (d_of_Z z) default_row))
    [1; 2; 3; 4; 5; 6; 7; 8; 9; 10]%Z.

(** [|x - y| <= 1e-9 * |y|], on binary64. *)
Definition within_tolerance (x y : float) : bool :=
  PrimFloat.leb (PrimFloat.abs (x - y)) (d_of_Q (1 # 1000000000) * PrimFloat.abs y).





(** [std::isfinite]. *)
Definition isfinite (x : float) : bool :=
  match Prim2SF x with
  | S754_zero _ | S754_finite _ _ _ => true
  | _ => false
  end.










(** ** [format_numeric] *)

(** A [std::string] is a list of characters here; a [size_t] is an integer
    modulo 2^64 and an [int] an integer modulo 2^32, read as signed. *)
Definition npos : Z := (2 ^ 64 - 1)%Z.

Definition size_add (a b : Z) : Z := ((a + b) mod 2 ^ 64)%Z.

Definition size_sub (a b : Z) : Z := ((a - b) mod 2 ^ 64)%Z.

(** The conversion of a [size_t] to [int]. *)
Definition to_int (z : Z) : Z :=
  let r := (z mod 2 ^ 32)%Z in
  if (r <? 2 ^ 31)%Z then r else (r - 2 ^ 32)%Z.

(** [s.find(c)], searching from index [i]: the index of the first [c], or
    [npos]. *)
Fixpoint find_from (c : ascii) (s : list ascii) (i : Z) : Z :=
  match s with
  | [] => npos
  | x :: t => if Ascii.eqb x c then i else find_from c t (i + 1)%Z
  end.

Definition find (c : ascii) (s : list ascii) : Z := find_from c s 0%Z.

(** [s.substr(pos, count)]: [None] is [std::out_of_range], thrown when
    [pos > s.size()]; the count is cut at the end of the string. *)
Definition substr (s : list ascii) (pos count : Z) : option (list ascii) :=
  let size := Z.of_nat (length s) in
  if (size <? pos)%Z then None
  else Some (firstn (Z.to_nat (Z.min count (size - pos)%Z)) (skipn (Z.to_nat pos) s)).

(** [s[i]], for an [int] index that is not negative: [s[s.size()]] is the
    null character, an index beyond it is undefined behaviour, [None]. *)
Definition char_at (s : list ascii) (i : Z) : option ascii :=
  if (i =? Z.of_nat (length s))%Z then Some Ascii.zero
  else nth_error s (Z.to_nat i).

(** [s.insert(pos, x)]: [None] is [std::out_of_range]. *)
Definition insert (s : list ascii) (pos : Z) (x : list ascii) : option (list ascii) :=
  if (Z.of_nat (length s) <? pos)%Z then None
  else Some (firstn (Z.to_nat pos) s ++ x ++ skipn (Z.to_nat pos) s).

(** [std::stoi]: white space, an optional sign, then decimal digits, at least
    one; what follows the digits is ignored.  [None] is
    [std::invalid_argument] (no digit) or [std::out_of_range] (not an
    [int]). *)
Definition is_space (c : ascii) : bool :=
  let n := N_of_ascii c in
  (N.eqb n 32 || (N.leb 9 n && N.leb n 13))%bool.

Definition digit_of (c : ascii) : option Z :=
  let n := Z.of_N (N_of_ascii c) in
  if ((48 <=? n) && (n <=? 57))%Z%bool then Some (n - 48)%Z else None.

Fixpoint skip_spaces (s : list ascii) : list ascii :=
  match s with
  | c :: t => if is_space c then skip_spaces t else s
  | [] => []
  end.

Fixpoint read_digits (s : list ascii) (acc : Z) (seen : bool) : option Z :=
  match s with
  | c :: t =>
      match digit_of c with
      | Some d => read_digits t (acc * 10 + d)%Z true
      | None => if seen then Some acc else None
      end
  | [] => if seen then Some acc else None
  end.

Definition stoi (s : list ascii) : option Z :=
  let s := skip_spaces s in
  let (neg, s) :=
    match s with
    | c :: t =>
        if Ascii.eqb c "-" then (true, t)
        else if Ascii.eqb c "+" then (false, t)
        else (false, s)
    | [] => (false, s)
    end in
  v <- read_digits s 0%Z false ;;
  let v := if neg then (- v)%Z else v in
  if ((v <? - 2 ^ 31) || (2 ^ 31 - 1 <? v))%Z%bool then None else Some v.

(** The loop of [format_numeric] that inserts the commas, from the right:
    [while (insertPosition > 0 && integer_part[insertPosition-1] != '-')].
    [None] is undefined behaviour, an exception or a loop that has not ended
    within [fuel] iterations. *)
Fixpoint insert_commas (fuel : nat) (insertPosition : Z) (integer_part : list ascii)
  : option (list ascii) :=
  match fuel with
  | O => None
  | S fuel' =>
      if (insertPosition >? 0)%Z then
        c <- char_at integer_part (insertPosition - 1)%Z ;;
        if negb (Ascii.eqb c "-") then
          integer_part <- insert integer_part insertPosition [","%char] ;;
          insert_commas fuel' (insertPosition - 3)%Z integer_part
        else Some integer_part
      else Some integer_part
  end.

(** The second half of [format_numeric], from [std::string s = ss.str()] on:
    split [s] at the decimal point, insert the commas in the integer part,
    put the two parts together again. *)
Definition thousands (s : list ascii) : option (list ascii) :=
  let decimal_point_pos := find "." s in
  integer_part <-
    (if (decimal_point_pos =? npos)%Z then Some s else substr s 0%Z decimal_point_pos) ;;
  fractional_part <-
    (if (decimal_point_pos =? npos)%Z then Some [] else substr s decimal_point_pos npos) ;;
  let insertPosition := to_int (size_sub (Z.of_nat (length integer_part)) 3%Z) in
  integer_part <- insert_commas (S (length integer_part)) insertPosition integer_part ;;
  Some (integer_part ++ fractional_part).

(** [std::isnan]: a double is a NaN exactly when it differs from itself. *)
Definition isnan {D : Type} {ops : DoubleOps D} (value : D) : bool :=
  negb (d_eqb value value).

(** [format_numeric].  [fixed p v] is the text that
    [ss << std::fixed << std::setprecision(p) << v] writes, a parameter. *)
Definition format_numeric {D : Type} {ops : DoubleOps D}
  (fixed : Z -> D -> list ascii) (value : D) (format_spec : list ascii)
  : option (list ascii) :=
  if isnan value then Some []
  else
    precision <-
      (if negb (find "f" format_spec =? npos)%Z then
         text <- substr format_spec (size_add (find "." format_spec) 1%Z)
                   (size_sub (size_sub (find "f" format_spec) (find "." format_spec)) 1%Z) ;;
         stoi text
       else Some 0%Z) ;;
    thousands (fixed precision value).

(** The text with its commas removed. *)
Definition strip_commas (s : list ascii) : list ascii :=
  filter (fun c => negb (Ascii.eqb c ",")) s.

(** Groups of three separated by commas, on the reversed text. *)
Fixpoint group_rev (r : list ascii) : list ascii :=
  match r with
  | a :: b :: c :: rest =>
      match rest with
      | [] => r
      | _ => a :: b :: c :: ","%char :: group_rev rest
      end
  | _ => r
  end.

(** A text grouped in threes from the right. *)
Definition group3 (d : list ascii) : list ascii := rev (group_rev (rev d)).

(** ** The table of [display_public] *)

(** A [std::map] with string keys as an association list; [at_] is its
    [.at], [None] the [std::out_of_range] of a missing key. *)
Fixpoint at_ {V : Type} (m : list (string * V)) (key : string) : option V :=
  match m with
  | [] => None
  | (k, v) :: m' => if String.eqb k key then Some v else at_ m' key
  end.

Definition COLUMN_FORMATS : list (string * list (string * string)) :=
  [ ("Date",     [("width", "10"); ("align", "<"); ("prefix", " ")]);
    ("Price",    [("width", "10"); ("align", ">"); ("prefix", "")]);
    ("Move",     [("width", "7");  ("align", ">"); ("prefix", " ")]);
    ("Offset",   [("width", "7");  ("align", ">"); ("prefix", "")]);
    ("CEILING",  [("width", "10"); ("align", ">"); ("prefix", "")]);
    (" MEDIAN",  [("width", "10"); ("align", ">"); ("prefix", "")]);
    (" FLOOR ",  [("width", "10"); ("align", ">"); ("prefix", "")]);
    ("Step",     [("width", "5");  ("align", ">"); ("prefix", "")]);
    ("Change",   [("width", "7");  ("align", ">"); ("prefix", "")]);
    ("52-weeks", [("width", "8");  ("align", "^"); ("prefix", " ")]) ]%string.

(** [COLUMN_FORMATS.at(name).at(key)]. *)
Definition column (name key : string) : option (list ascii) :=
  formats <- at_ COLUMN_FORMATS name ;;
  text <- at_ formats key ;;
  Some (list_ascii_of_string text).

(** The rule printed above and below the rows. *)
Definition table_rule : list ascii :=
  list_ascii_of_string
    "+------------+-----------+--------+---------+----------+----------+----------+------+--------+----------+".

(** [ss << std::setw(w) << std::left << text] and the same with
    [std::right]: the text, filled up to [w] characters with spaces on its
    right, or on its left; a longer text is written as it is. *)
Definition fill (w : Z) (text : list ascii) : list ascii :=
  repeat " "%char (Z.to_nat (w - Z.of_nat (length text))).

Definition setw_left (w : Z) (text : list ascii) : list ascii := text ++ fill w text.

Definition setw_right (w : Z) (text : list ascii) : list ascii := fill w text ++ text.

Section Table.

Context {D : Type} {ops : DoubleOps D}.

Variable fixed : Z -> D -> list ascii.

(** A column whose text is [format_numeric(value, "0f")]. *)
Definition numeric_column (name : string) (value : D) : option (list ascii) :=
  width <- column name "width" ;;
  w <- stoi width ;;
  text <- format_numeric fixed value (list_ascii_of_string "0f") ;;
  Some (setw_right w text ++ list_ascii_of_string " |").

(** A column whose text is the prefix and the value with [p] decimals and a
    percent sign. *)
Definition percent_column (name : string) (p : Z) (value : D) : option (list ascii) :=
  width <- column name "width" ;;
  w <- stoi width ;;
  prefix <- column name "prefix" ;;
  Some (setw_right w (prefix ++ fixed p value ++ ["%"%char]) ++ list_ascii_of_string " |").

(** The text of one row, [ss_row.str()] in the loop of [display_public]. *)
Definition ss_row (row : PiCycleData D) : option (list ascii) :=
  width <- column "Date" "width" ;;
  w <- stoi width ;;
  prefix <- column "Date" "prefix" ;;
  let c_date :=
    setw_left w (prefix ++ list_ascii_of_string (date row)) ++ list_ascii_of_string " |" in
  c_price <- numeric_column "Price" (price row) ;;
  c_move <- percent_column "Move" 2 (move row) ;;
  c_offset <- percent_column "Offset" 1 (offset row) ;;
  c_ceiling <- numeric_column "CEILING" (ceiling row) ;;
  c_median <- numeric_column " MEDIAN" (median row) ;;
  c_floor <- numeric_column " FLOOR " (floor row) ;;
  c_step <- numeric_column "Step" (step row) ;;
  c_change <- numeric_column "Change" (change row) ;;
  c_52weeks <- percent_column "52-weeks" 2 (weeks_52 row) ;;
  Some ("|"%char :: c_date ++ c_price ++ c_move ++ c_offset ++ c_ceiling ++ c_median
          ++ c_floor ++ c_step ++ c_change ++ c_52weeks).

End Table.

(** ** Loops and vectors *)

Section Loops.

Context {A : Type}.

Lemma length_update (i : nat) (x : A) (l : list A) :
  length (update i x l) = length l.
Proof.
  revert i; induction l as [|h t IH]; intros [|i]; simpl; auto.
Qed.

Lemma nth_error_update_eq (i : nat) (x : A) (l : list A) :
  i < length l -> nth_error (update i x l) i = Some x.
Proof.
  revert i; induction l as [|h t IH]; intros [|i] H; simpl in *; try lia; auto.
  apply IH; lia.
Qed.

Lemma nth_error_update_neq (i k : nat) (x : A) (l : list A) :
  k <> i -> nth_error (update i x l) k = nth_error l k.
Proof.
  revert i k; induction l as [|h t IH]; intros [|i] [|k] H; simpl; auto;
    try congruence.
Qed.

Lemma update_update (i : nat) (x y : A) (l : list A) :
  update i y (update i x l) = update i y l.
Proof.
  revert i; induction l as [|h t IH]; intros [|i]; simpl; auto.
  now rewrite IH.
Qed.

Lemma update_same (i : nat) (x : A) (l : list A) :
  nth_error l i = Some x -> update i x l = l.
Proof.
  revert i; induction l as [|h t IH]; intros [|i] H; simpl in *; try discriminate.
  - now inversion H.
  - now rewrite (IH i H).
Qed.

Lemma assign_known (v : list A) (i : nat) (f : A -> A) (r : A) :
  nth_error v i = Some r -> assign v i f = Some (update i (f r) v).
Proof.
  intros H; unfold assign; now rewrite H.
Qed.

Lemma assign_update (v : list A) (i : nat) (f : A -> A) (x : A) :
  i < length v -> assign (update i x v) i f = Some (update i (f x) v).
Proof.
  intros H; unfold assign.
  rewrite nth_error_update_eq by assumption; simpl.
  now rewrite update_update.
Qed.

End Loops.

Lemma for_loop_inv {St : Type} (Inv : nat -> St -> Prop)
  (body : nat -> St -> option St) (n lo : nat) (s : St) :
  Inv lo s ->
  (forall i st, lo <= i < lo + n -> Inv i st ->
     exists st', body i st = Some st' /\ Inv (S i) st') ->
  exists s', for_loop n lo body s = Some s' /\ Inv (lo + n) s'.
Proof.
  revert lo s; induction n as [|n IH]; intros lo s H0 Hstep.
  - exists s; rewrite Nat.add_0_r; auto.
  - destruct (Hstep lo s) as [s1 [E1 I1]]; [lia | assumption |].
    destruct (IH (S lo) s1 I1) as [s2 [E2 I2]].
    + intros i st Hi; apply Hstep; lia.
    + exists s2; simpl; rewrite E1; simpl; rewrite E2; split; auto.
      replace (lo + S n) with (S lo + n) by lia; assumption.
Qed.

Lemma for_loop_ext {St : Type} (body1 body2 : nat -> St -> option St)
  (n lo : nat) (s : St) :
  (forall i st, lo <= i < lo + n -> body1 i st = body2 i st) ->
  for_loop n lo body1 s = for_loop n lo body2 s.
Proof.
  revert lo s; induction n as [|n IH]; intros lo s H; simpl; auto.
  rewrite H by lia.
  destruct (body2 lo s) as [s1|]; simpl; auto.
  apply IH; intros; apply H; lia.
Qed.

(** A summation loop over a vector is a left fold over a slice of it. *)
Lemma for_loop_fold {A St : Type} (l : list A) (f : St -> A -> St) (n lo : nat) (s : St) :
  lo + n <= length l ->
  for_loop n lo (fun j acc => x <- nth_error l j ;; Some (f acc x)) s
  = Some (fold_left f (firstn n (skipn lo l)) s).
Proof.
  revert lo s; induction n as [|n IH]; intros lo s H; simpl; auto.
  destruct (nth_error l lo) as [x|] eqn:E.
  - simpl. rewrite IH by lia.
    assert (Hs : skipn lo l = x :: skipn (S lo) l).
    { clear - E. revert lo E; induction l as [|h t IHl]; intros [|lo] E;
        simpl in *; try discriminate.
      - now inversion E.
      - now apply IHl. }
    rewrite Hs; reflexivity.
  - apply nth_error_None in E; lia.
Qed.

Lemma firstn_snoc {A : Type} (l : list A) (n : nat) (x : A) :
  nth_error l n = Some x -> firstn (S n) l = firstn n l ++ [x].
Proof.
  revert n; induction l as [|h t IH]; intros [|n] H; simpl in *; try discriminate.
  - now inversion H.
  - now rewrite (IH n H).
Qed.

(** A summation loop that walks down from row [i] folds over the reversed
    slice. *)
Lemma for_loop_fold_down {A St : Type} (l : list A) (f : St -> A -> St)
  (i n lo : nat) (s : St) :
  lo + n <= S i -> i < length l ->
  for_loop n lo (fun j acc => x <- nth_error l (i - j) ;; Some (f acc x)) s
  = Some (fold_left f (rev (firstn n (skipn (S i - lo - n) l))) s).
Proof.
  revert lo s; induction n as [|n IH]; intros lo s H Hi; [reflexivity|].
  destruct (nth_error l (i - lo)) as [x|] eqn:E.
  2:{ apply nth_error_None in E; lia. }
  cbn [for_loop]. rewrite E; cbn [bind].
  rewrite IH by lia.
  replace (S i - S lo - n) with (S i - lo - S n) by lia.
  rewrite (firstn_snoc _ n x).
  - rewrite rev_unit; reflexivity.
  - rewrite nth_error_skipn. replace (S i - lo - S n + n) with (i - lo) by lia.
    assumption.
Qed.

Lemma map_agree {A B : Type} (g : A -> B) (l1 l2 : list A) :
  length l1 = length l2 ->
  (forall k a, nth_error l2 k = Some a ->
     exists b, nth_error l1 k = Some b /\ g b = g a) ->
  map g l1 = map g l2.
Proof.
  revert l2; induction l1 as [|h1 t1 IH]; intros [|h2 t2] Hl H;
    simpl in *; try discriminate; [reflexivity|].
  destruct (H 0 h2 eq_refl) as [b [Hb Hg]]; simpl in Hb; inversion Hb; subst b.
  rewrite Hg; f_equal. apply IH; [lia|].
  intros k a Hk; apply (H (S k) a Hk).
Qed.

(** Such a loop returns, and leaves [spec k r] in every row. *)
Lemma for_range_pointwise {A : Type} (spec : nat -> A -> A)
  (body : nat -> list A -> option (list A)) (orig : list A) (lo : nat) :
  (forall k r, k < lo -> spec k r = r) ->
  (forall i cur r, lo <= i < length orig -> done_upto spec i orig cur ->
     nth_error orig i = Some r -> nth_error cur i = Some r ->
     body i cur = Some (update i (spec i r) cur)) ->
  exists out, for_range lo (length orig) body orig = Some out /\
    length out = length orig /\
    forall k r, nth_error orig k = Some r -> nth_error out k = Some (spec k r).
Proof.
  intros Hlo Hbody; unfold for_range.
  destruct (for_loop_inv (fun i cur => done_upto spec i orig cur) body
              (length orig - lo) lo orig) as [out [E [Hlen Hout]]].
  - split; auto. intros k r Hk.
    destruct (k <? lo) eqn:Ek; auto.
    apply Nat.ltb_lt in Ek; now rewrite Hlo.
  - intros i cur Hi [Hlen Hcur].
    destruct (nth_error orig i) as [r|] eqn:Er.
    2:{ apply nth_error_None in Er; lia. }
    assert (Hci : nth_error cur i = Some r).
    { rewrite (Hcur i r Er), Nat.ltb_irrefl; reflexivity. }
    exists (update i (spec i r) cur); split.
    + apply Hbody; auto; [lia | split; auto].
    + split; [now rewrite length_update|].
      intros k r' Hk. destruct (Nat.eq_dec k i) as [->|Hne].
      * rewrite nth_error_update_eq by lia.
        assert (Hlt : (i <? S i) = true) by (apply Nat.ltb_lt; lia).
        rewrite Hlt; congruence.
      * rewrite nth_error_update_neq by assumption.
        rewrite (Hcur k r' Hk).
        assert (Hb : (k <? S i) = (k <? i)).
        { destruct (k <? i) eqn:E1.
          - apply Nat.ltb_lt in E1; apply Nat.ltb_lt; lia.
          - apply Nat.ltb_ge in E1; apply Nat.ltb_ge; lia. }
        now rewrite Hb.
  - exists out; split; [assumption|]; split; [assumption|].
    intros k r Hk. rewrite (Hout k r Hk).
    assert (Hkl : k < length orig) by (apply nth_error_Some; congruence).
    destruct (k <? lo + (length orig - lo)) eqn:Ek; auto.
    apply Nat.ltb_ge in Ek. now rewrite Hlo by lia.
Qed.

(** Case analysis on the guards of the row functions. *)
Ltac row_simpl :=
  cbn [date price ma_365 std_365 ceiling floor median dynamic_step step change
       move offset weeks_52 set_date set_price set_ma_365 set_std_365 set_ceiling
       set_floor set_median set_dynamic_step set_step set_change set_move
       set_offset set_weeks_52 default_row].

Ltac row_cases :=
  unfold weeks_52_row, offset_row, step_row, change_row, stats_row, pct_or;
  repeat (row_simpl;
    match goal with
    | |- context [match ?p with Some _ => _ | None => _ end] => destruct p
    | |- context [if ?b then _ else _] =>
        lazymatch b with
        | context [if _ then _ else _] => fail
        | _ => destruct b
        end
    end);
  row_simpl.

(** ** The Window Statistics Engine: what [price_projection] returns *)

Section EngineFacts.

Context {D : Type} {ops : DoubleOps D}.

Lemma fold_left_map {A B C : Type} (f : A -> B -> A) (g : C -> B) (l : list C) (a : A) :
  fold_left f (map g l) a = fold_left (fun acc x => f acc (g x)) l a.
Proof.
  revert a; induction l as [|h t IH]; intros a; simpl; auto.
Qed.

Lemma window_length (klines : list (Kline D)) (i : nat) :
  364 <= i < length klines -> length (window klines i) = 365.
Proof.
  intros H; unfold window.
  rewrite length_map, length_firstn, length_skipn; lia.
Qed.

Lemma window_nth (klines : list (Kline D)) (i j : nat) :
  364 <= i -> j < 365 ->
  nth_error (window klines i) j = option_map k_price (nth_error klines (i - 364 + j)).
Proof.
  intros Hi Hj; unfold window.
  rewrite nth_error_map, nth_error_firstn.
  assert (E : (j <? 365) = true) by (apply Nat.ltb_lt; assumption).
  rewrite E, nth_error_skipn; reflexivity.
Qed.

(** [price_projection] returns, and row [i] of its result is
    [stats_row klines i]. *)
Lemma price_projection_rows (klines : list (Kline D)) (ym : D) :
  exists rows, price_projection klines ym = Some rows /\
    length rows = length klines /\
    forall i k, nth_error klines i = Some k ->
      nth_error rows i = Some (stats_row klines i k).
Proof.
  unfold price_projection.
  set (orig := repeat default_row (length klines)).
  set (spec := fun (i : nat) (r : PiCycleData D) =>
                 match nth_error klines i with
                 | Some k => stats_row klines i k
                 | None => r
                 end).
  assert (Hlen : length orig = length klines) by apply repeat_length.
  cbv zeta.
  match goal with |- context [for_range 0 _ ?b _] => set (body := b) end.
  destruct (for_range_pointwise spec body orig 0) as [out [E [Hl Hout]]];
    [| | rewrite Hlen in E].
  - intros k r Hk; lia.
  - intros i cur r Hi [Hcl _] Hr Hc.
    assert (r = default_row).
    { apply nth_error_In in Hr; apply repeat_spec in Hr; assumption. }
    subst r. subst body. cbv beta. rewrite Hlen in Hi.
    destruct (nth_error klines i) as [ki|] eqn:Ek.
    2:{ apply nth_error_None in Ek; lia. }
    cbn [bind].
    rewrite (assign_known cur i _ default_row Hc); cbn [bind].
    rewrite assign_update by lia; cbn [bind].
    unfold spec; rewrite Ek; unfold stats_row.
    destruct (364 <=? i) eqn:E364; [|reflexivity].
    apply Nat.leb_le in E364.
    unfold for_range.
    replace (S i - (i - 364)) with 365 by lia.
    rewrite for_loop_fold by lia; cbn [bind].
    rewrite assign_update by lia; cbn [bind].
    match goal with
    | |- context [for_loop 365 (i - 364) ?b _] =>
        rewrite (for_loop_ext b
          (fun j acc => x <- nth_error klines j ;;
             Some (acc + d_pow2 (k_price x - mean365 (window klines i)))%dbl))
    end.
    2:{ intros j st Hj. rewrite nth_error_update_eq by lia.
        destruct (nth_error klines j); cbn [bind]; [|reflexivity].
        cbn [ma_365 set_ma_365]. unfold mean365, sum, window.
        now rewrite fold_left_map. }
    rewrite (for_loop_fold klines
               (fun acc x => (acc + d_pow2 (k_price x - mean365 (window klines i)))%dbl))
      by lia.
    cbn [bind].
    repeat (rewrite assign_update by lia; cbn [bind]).
    do 2 f_equal.
    unfold stddev365, sum_sq_dev, mean365, sum, window.
    rewrite !fold_left_map. reflexivity.
  - exists out; split; [assumption|]; split; [congruence|].
    intros i k Hk.
    assert (Hi : i < length orig).
    { rewrite Hlen; apply nth_error_Some; congruence. }
    destruct (nth_error orig i) as [r|] eqn:Er.
    2:{ apply nth_error_None in Er; lia. }
    rewrite (Hout i r Er); unfold spec; now rewrite Hk.
Qed.

(** *** The passes of [add_calculated_fields] *)

Lemma ltb_pred (i : nat) : 1 <= i -> (i - 1 <? i) = true.
Proof. intros H; apply Nat.ltb_lt; lia. Qed.

Lemma price_change_row (p : option D) (r : PiCycleData D) :
  price (change_row p r) = price r.
Proof.
  unfold change_row; destruct p as [p|]; [|reflexivity].
  destruct (negb (d_eqb p (d_of_Z 0))); reflexivity.
Qed.

Lemma calc_daily_changes_rows (pd : list (PiCycleData D)) :
  exists out, calc_daily_changes pd = Some out /\
    length out = length pd /\
    forall i r, nth_error pd i = Some r ->
      nth_error out i = Some (change_row (price_back pd 1 i) r).
Proof.
  unfold calc_daily_changes.
  apply (for_range_pointwise (fun i r => change_row (price_back pd 1 i) r)).
  - intros k r Hk. assert (k = 0) by lia; subst k. reflexivity.
  - intros i cur r Hi [Hcl Hcur] Hr Hc.
    rewrite Hc; cbn [bind].
    destruct (nth_error pd (i - 1)) as [rp|] eqn:Ep.
    2:{ apply nth_error_None in Ep; lia. }
    pose proof (Hcur (i - 1) rp Ep) as Hcp.
    rewrite ltb_pred in Hcp by lia.
    rewrite Hcp; cbn [bind].
    rewrite (assign_known cur i _ r Hc); cbn [bind].
    rewrite nth_error_update_neq by lia.
    rewrite Hcp; cbn [bind].
    rewrite price_change_row.
    unfold price_back.
    assert (E1 : (1 <=? i) = true) by (apply Nat.leb_le; lia).
    rewrite E1, Ep; cbn [option_map]; unfold change_row.
    destruct (negb (d_eqb (price rp) (d_of_Z 0))); [|reflexivity].
    rewrite nth_error_update_eq by lia; cbn [bind].
    rewrite assign_update by lia. reflexivity.
Qed.

Lemma changes_agree (l1 l2 : list (PiCycleData D)) (i : nat) :
  map change l1 = map change l2 -> changes l1 i = changes l2 i.
Proof.
  intros H; unfold changes.
  now rewrite <- !firstn_map, <- !skipn_map, H.
Qed.

Lemma change_step_row (l : list (PiCycleData D)) (i : nat) (r : PiCycleData D) :
  change (step_row l i r) = change r.
Proof.
  unfold step_row; destruct (364 <=? i); reflexivity.
Qed.

Lemma calc_dynamic_step_rows (pd : list (PiCycleData D)) :
  exists out, calc_dynamic_step pd = Some out /\
    length out = length pd /\
    forall i r, nth_error pd i = Some r ->
      nth_error out i = Some (step_row pd i r).
Proof.
  unfold calc_dynamic_step; cbv zeta.
  apply (for_range_pointwise (step_row pd)).
  - intros k r Hk; lia.
  - intros i cur r Hi [Hcl Hcur] Hr Hc.
    assert (Hmap : map change cur = map change pd).
    { apply map_agree; [assumption|].
      intros k a Hk; rewrite (Hcur k a Hk).
      eexists; split; [reflexivity|].
      destruct (k <? i); [apply change_step_row | reflexivity]. }
    unfold step_row.
    destruct (364 <=? i) eqn:E364.
    + apply Nat.leb_le in E364.
      unfold for_range; rewrite Nat.sub_0_r.
      rewrite (for_loop_fold_down cur (fun acc r => (acc + change r)%dbl) i 364 0)
        by lia.
      cbn [bind].
      rewrite (assign_known cur i _ r Hc); cbn [bind].
      rewrite assign_update by lia.
      replace (S i - 0 - 364) with (i - 363) by lia.
      rewrite <- (changes_agree cur pd i Hmap).
      unfold sum, changes. rewrite <- map_rev, fold_left_map.
      reflexivity.
    + cbn [bind]. rewrite (assign_known cur i _ r Hc). reflexivity.
Qed.

Lemma calc_offset_rows (pd : list (PiCycleData D)) :
  exists out, calc_offset pd = Some out /\
    length out = length pd /\
    forall i r, nth_error pd i = Some r -> nth_error out i = Some (offset_row r).
Proof.
  unfold calc_offset.
  apply (for_range_pointwise (fun _ r => offset_row r)).
  - intros k r Hk; lia.
  - intros i cur r Hi [Hcl Hcur] Hr Hc.
    rewrite Hc; cbn [bind]. unfold offset_row.
    destruct (negb (d_eqb (median r) (d_of_Z 0))).
    + rewrite (assign_known cur i _ r Hc). reflexivity.
    + now rewrite (update_same i r cur Hc).
Qed.

Lemma price_weeks_52_row (p : option D) (r : PiCycleData D) :
  price (weeks_52_row p r) = price r.
Proof.
  unfold weeks_52_row; destruct p as [p|]; [|reflexivity].
  destruct (negb (d_eqb p (d_of_Z 0))); reflexivity.
Qed.

Lemma calc_weeks_52_rows (pd : list (PiCycleData D)) :
  exists out, calc_weeks_52 pd = Some out /\
    length out = length pd /\
    forall i r, nth_error pd i = Some r ->
      nth_error out i = Some (weeks_52_row (price_back pd 364 i) r).
Proof.
  unfold calc_weeks_52.
  apply (for_range_pointwise (fun i r => weeks_52_row (price_back pd 364 i) r)).
  - intros k r Hk; lia.
  - intros i cur r Hi [Hcl Hcur] Hr Hc.
    unfold price_back.
    destruct (364 <=? i) eqn:E364.
    2:{ cbn [weeks_52_row]. now rewrite (update_same i r cur Hc). }
    apply Nat.leb_le in E364.
    destruct (nth_error pd (i - 364)) as [r0|] eqn:E0.
    2:{ apply nth_error_None in E0; lia. }
    pose proof (Hcur (i - 364) r0 E0) as Hc0.
    assert (Hlt : (i - 364 <? i) = true) by (apply Nat.ltb_lt; lia).
    rewrite Hlt in Hc0.
    rewrite Hc0; cbn [bind option_map weeks_52_row].
    rewrite price_weeks_52_row.
    destruct (negb (d_eqb (price r0) (d_of_Z 0))).
    + rewrite Hc; cbn [bind].
      rewrite (assign_known cur i _ r Hc). reflexivity.
    + now rewrite (update_same i r cur Hc).
Qed.

(** [add_calculated_fields] returns; its four passes compose row by row. *)
Lemma add_calculated_fields_rows (pd : list (PiCycleData D)) (ndd : nat) :
  exists pd1 pd2 out, add_calculated_fields pd ndd = Some out /\
    length pd1 = length pd /\ length pd2 = length pd /\ length out = length pd /\
    (forall i r, nth_error pd i = Some r ->
       nth_error pd1 i = Some (change_row (price_back pd 1 i) r)) /\
    (forall i r, nth_error pd1 i = Some r ->
       nth_error pd2 i = Some (step_row pd1 i r)) /\
    (forall i r, nth_error pd2 i = Some r ->
       nth_error out i = Some (weeks_52_row (price_back pd 364 i) (offset_row r))).
Proof.
  unfold add_calculated_fields.
  destruct (calc_daily_changes_rows pd) as [pd1 [E1 [L1 H1]]].
  destruct (calc_dynamic_step_rows pd1) as [pd2 [E2 [L2 H2]]].
  destruct (calc_offset_rows pd2) as [pd3 [E3 [L3 H3]]].
  destruct (calc_weeks_52_rows pd3) as [pd4 [E4 [L4 H4]]].
  exists pd1, pd2, pd4.
  rewrite E1; cbn [bind]; rewrite E2; cbn [bind]; rewrite E3; cbn [bind].
  repeat split; try assumption; try congruence.
  intros i r Hr. rewrite (H4 i (offset_row r) (H3 i r Hr)).
  do 2 f_equal.
  (* the price 364 rows back is the one the window engine stored *)
  unfold price_back. destruct (364 <=? i); [|reflexivity].
  destruct (nth_error pd (i - 364)) as [a|] eqn:Ea.
  - rewrite (H3 _ _ (H2 _ _ (H1 _ _ Ea))); cbn [option_map].
    f_equal. unfold offset_row, step_row.
    destruct (negb (d_eqb _ _)); destruct (364 <=? i - 364);
      cbn; apply price_change_row.
  - assert (Hn : nth_error pd3 (i - 364) = None).
    { apply nth_error_None; apply nth_error_None in Ea; lia. }
    now rewrite Hn.
Qed.

(** The engine returns; row [i] of its result is obtained from
    [stats_row klines i] by the four row functions. *)
Lemma engine_rows (klines : list (Kline D)) (ym : D) (ndd : nat) :
  exists rows pd1 pd2 out,
    price_projection klines ym = Some rows /\
    add_calculated_fields rows ndd = Some out /\
    engine klines ym ndd = Some out /\
    length rows = length klines /\ length pd1 = length klines /\
    length pd2 = length klines /\ length out = length klines /\
    (forall i k, nth_error klines i = Some k ->
       nth_error rows i = Some (stats_row klines i k)) /\
    (forall i r, nth_error rows i = Some r ->
       nth_error pd1 i = Some (change_row (price_back rows 1 i) r)) /\
    (forall i r, nth_error pd1 i = Some r ->
       nth_error pd2 i = Some (step_row pd1 i r)) /\
    (forall i r, nth_error pd2 i = Some r ->
       nth_error out i = Some (weeks_52_row (price_back rows 364 i) (offset_row r))).
Proof.
  destruct (price_projection_rows klines ym) as [rows [E0 [L0 H0]]].
  destruct (add_calculated_fields_rows rows ndd)
    as [pd1 [pd2 [out [E [L1 [L2 [L3 [H1 [H2 H3]]]]]]]]].
  exists rows, pd1, pd2, out.
  unfold engine; rewrite E0; cbn [bind].
  repeat split; try assumption; congruence.
Qed.

(** The band of a returned row is the one the Window Statistics Engine
    computed: the Derived Field Calculator leaves it alone. *)
Lemma engine_bands (klines : list (Kline D)) (ym : D) (ndd : nat) :
  exists rows out,
    price_projection klines ym = Some rows /\
    engine klines ym ndd = Some out /\
    length rows = length klines /\ length out = length klines /\
    forall i r, nth_error rows i = Some r \/ nth_error out i = Some r ->
      exists k, nth_error klines i = Some k /\
        price r = k_price k /\
        ma_365 r = ma_365 (stats_row klines i k) /\
        std_365 r = std_365 (stats_row klines i k) /\
        ceiling r = ceiling (stats_row klines i k) /\
        floor r = floor (stats_row klines i k) /\
        median r = median (stats_row klines i k).
Proof.
  destruct (engine_rows klines ym ndd)
    as [rows [pd1 [pd2 [out [E0 [_ [E [L0 [L1 [L2 [L3 [H0 [H1 [H2 H3]]]]]]]]]]]]]].
  exists rows, out. repeat (split; [assumption|]).
  intros i r Hr.
  assert (Hlt : i < length klines).
  { destruct Hr as [Hr|Hr]; [rewrite <- L0 | rewrite <- L3];
      apply nth_error_Some; congruence. }
  destruct (nth_error klines i) as [k|] eqn:Ek.
  2:{ apply nth_error_None in Ek; lia. }
  exists k; split; [reflexivity|].
  destruct Hr as [Hr|Hr].
  - rewrite (H0 _ _ Ek) in Hr; inversion Hr; subst r.
    repeat split. unfold stats_row; destruct (364 <=? i); reflexivity.
  - rewrite (H3 _ _ (H2 _ _ (H1 _ _ (H0 _ _ Ek)))) in Hr.
    inversion Hr; subst r; clear Hr.
    repeat split;
      unfold weeks_52_row, offset_row, step_row, change_row, pct_or;
      repeat (row_simpl;
        match goal with
        | |- context [match price_back ?l ?n ?j with Some _ => _ | None => _ end] =>
            destruct (price_back l n j)
        | |- context [if ?b then _ else _] =>
            lazymatch b with
            | context [if _ then _ else _] => fail
            | _ => destruct b
            end
        end); row_simpl; try reflexivity;
      unfold stats_row; destruct (364 <=? i); reflexivity.
Qed.

End EngineFacts.

(** ** The laws hold of both arithmetics *)

Lemma float_zero : d_of_Z (D:=float) 0 = 0%float.
Proof. vm_compute; reflexivity. Qed.

Lemma SFsub_eq_not_pos (x y : spec_float) :
  SFeqb x y = true -> SFltb (S754_zero false) (SF64sub x y) = false.
Proof.
  unfold SFeqb, SFltb, SF64sub, SFsub.
  destruct x as [sx|sx| |sx mx ex], y as [sy|sy| |sy my ey];
    try destruct sx; try destruct sy; cbn; try discriminate; try reflexivity.
  - destruct (Z.compare ex ey) eqn:Ee; try discriminate.
    destruct (Pos.compare_cont Eq mx my) eqn:Em; try discriminate.
    apply Z.compare_eq in Ee; apply Pos.compare_eq in Em; subst; intros _.
    rewrite Z.min_id. unfold shl_align; rewrite Z.sub_diag; cbn [fst cond_Zopp].
    rewrite Z.pos_sub_diag. reflexivity.
  - destruct (Z.compare ex ey) eqn:Ee; try discriminate.
    destruct (Pos.compare_cont Eq mx my) eqn:Em; try discriminate.
    apply Z.compare_eq in Ee; apply Pos.compare_eq in Em; subst; intros _.
    rewrite Z.min_id. unfold shl_align; rewrite Z.sub_diag; cbn [fst cond_Zopp].
    rewrite Z.pos_sub_diag. reflexivity.
Qed.

(** The laws hold of binary64 whatever the squaring function is. *)
#[export] Instance binary64_laws (pow2 : float -> float) :
  @DoubleLaws float (binary64 pow2).
Proof.
  split.
  - intros x y H. change (d_of_Z (ops:=binary64 pow2) 0) with 0%float.
    cbn in H |- *.
    rewrite FloatAxioms.eqb_spec in H.
    rewrite ltb_spec, sub_spec.
    now apply SFsub_eq_not_pos.
  - vm_compute; reflexivity.
  - vm_compute; reflexivity.
Qed.

#[export] Instance float_laws : DoubleLaws float.
Proof. exact (binary64_laws (fun x => PrimFloat.mul x x)). Qed.

Lemma real_zero : d_of_Z (D:=R) 0 = 0%R.
Proof. unfold d_of_Z; cbn; unfold Q2R; cbn; lra. Qed.

Lemma real_ltb (x y : R) : d_ltb x y = true <-> (x < y)%R.
Proof. cbn; destruct (Rlt_dec x y); split; intros; auto; discriminate. Qed.

Lemma real_leb (x y : R) : d_leb x y = true <-> (x <= y)%R.
Proof. cbn; destruct (Rle_dec x y); split; intros; auto; discriminate. Qed.

Lemma real_eqb (x y : R) : d_eqb x y = true <-> x = y.
Proof. cbn; destruct (Req_dec_T x y); split; intros; auto; discriminate. Qed.

Lemma real_leb_false (x y : R) : d_leb x y = false <-> (y < x)%R.
Proof.
  cbn; destruct (Rle_dec x y); split; intros; auto; try discriminate; lra.
Qed.

Lemma real_ltb_false (x y : R) : d_ltb x y = false <-> (y <= x)%R.
Proof.
  cbn; destruct (Rlt_dec x y); split; intros; auto; try discriminate; lra.
Qed.

#[export] Instance real_laws : DoubleLaws R.
Proof.
  split.
  - intros x y H. apply real_eqb in H. apply real_ltb_false.
    rewrite real_zero. cbn. lra.
  - apply real_leb_false. cbn; unfold Q2R; cbn. lra.
  - apply real_leb_false. cbn; unfold Q2R; cbn. lra.
Qed.

(** ** The claims about the engine *)

Section EngineClaims.

Context {D : Type} {ops : DoubleOps D}.

Notation "0.0" := (d_of_Q (D:=D) 0).

(** C1. For every price sequence, [price_projection] returns one row per
    price, and for every index [i >= 364] row [i] has [ma_365] equal to the
    arithmetic mean of the 365 prices [prices[i-364 .. i]], [std_365] equal
    to the square root of the sum of their squared deviations from that mean
    divided by 365, [ceiling = ma_365 + 2 * std_365], [floor = ma_365] and
    [median = (ceiling + floor) / 2].  Each deviation is squared by
    [std::pow(x, 2)], whatever double the library returns for it. *)
Theorem window_statistics_postcondition (klines : list (Kline D)) (ym : D) :
  exists rows, price_projection klines ym = Some rows /\
    length rows = length klines /\
    forall i, 364 <= i -> i < length klines ->
      exists r, nth_error rows i = Some r /\
        length (window klines i) = 365 /\
        (forall j, j < 365 ->
           nth_error (window klines i) j
           = option_map k_price (nth_error klines (i - 364 + j))) /\
        ma_365 r = (sum (window klines i) / d_of_Q 365)%dbl /\
        std_365 r
        = d_sqrt (sum_sq_dev (ma_365 r) (window klines i) / d_of_Q 365)%dbl /\
        ceiling r = (ma_365 r + d_of_Z 2 * std_365 r)%dbl /\
        floor r = ma_365 r /\
        median r = ((ceiling r + floor r) / d_of_Q 2)%dbl.
Proof.
  destruct (price_projection_rows klines ym) as [rows [E [L H]]].
  exists rows; split; [assumption|]; split; [assumption|].
  intros i Hi Hlt.
  destruct (nth_error klines i) as [k|] eqn:Ek.
  2:{ apply nth_error_None in Ek; lia. }
  exists (stats_row klines i k); split; [now apply H|].
  split; [apply window_length; lia|].
  split; [intros j Hj; now apply window_nth|].
  unfold stats_row.
  assert (E364 : (364 <=? i) = true) by (apply Nat.leb_le; assumption).
  rewrite E364. repeat split.
Qed.

(** C3. For every price sequence and every index [i < 364], the row the
    Window Statistics Engine produces, and the row the whole engine returns,
    have [ma_365], [std_365], [ceiling], [floor] and [median] all equal to
    [0.0]; for an input of exactly 364 prices every returned row has these
    fields and [weeks_52] equal to [0.0]. *)
Theorem insufficient_history_sentinel (klines : list (Kline D)) (ym : D) (ndd : nat) :
  exists rows out,
    price_projection klines ym = Some rows /\
    engine klines ym ndd = Some out /\
    length rows = length klines /\ length out = length klines /\
    (forall i r, i < 364 -> nth_error rows i = Some r \/ nth_error out i = Some r ->
       ma_365 r = 0.0 /\ std_365 r = 0.0 /\ ceiling r = 0.0 /\
       floor r = 0.0 /\ median r = 0.0) /\
    (length klines = 364 ->
     forall r, In r out ->
       ma_365 r = 0.0 /\ std_365 r = 0.0 /\ ceiling r = 0.0 /\
       floor r = 0.0 /\ median r = 0.0 /\ weeks_52 r = 0.0).
Proof.
  destruct (engine_rows klines ym ndd)
    as [rows [pd1 [pd2 [out [E0 [_ [E [L0 [L1 [L2 [L3 [H0 [H1 [H2 H3]]]]]]]]]]]]]].
  exists rows, out. repeat (split; [assumption|]).
  assert (Hrow : forall i r, i < 364 -> nth_error out i = Some r ->
            ma_365 r = 0.0 /\ std_365 r = 0.0 /\ ceiling r = 0.0 /\
            floor r = 0.0 /\ median r = 0.0 /\ weeks_52 r = 0.0).
  { intros i r Hi Hr.
    assert (Hlt : i < length klines).
    { rewrite <- L3; apply nth_error_Some; congruence. }
    destruct (nth_error klines i) as [k|] eqn:Ek.
    2:{ apply nth_error_None in Ek; lia. }
    rewrite (H3 _ _ (H2 _ _ (H1 _ _ (H0 _ _ Ek)))) in Hr.
    inversion Hr; subst r; clear Hr.
    assert (E364 : (364 <=? i) = false) by (apply Nat.leb_gt; assumption).
    assert (Hb : price_back rows 364 i = None).
    { unfold price_back; now rewrite E364. }
    rewrite Hb; cbn [weeks_52_row].
    unfold stats_row; rewrite E364.
    row_cases; try discriminate; repeat split. }
  split.
  - intros i r Hi [Hr|Hr].
    + assert (Hlt : i < length klines).
      { rewrite <- L0; apply nth_error_Some; congruence. }
      destruct (nth_error klines i) as [k|] eqn:Ek.
      2:{ apply nth_error_None in Ek; lia. }
      rewrite (H0 _ _ Ek) in Hr; inversion Hr; subst r.
      assert (E364 : (364 <=? i) = false) by (apply Nat.leb_gt; assumption).
      unfold stats_row; rewrite E364. repeat split.
    + destruct (Hrow i r Hi Hr) as [? [? [? [? [? _]]]]]; auto.
  - intros Hlen r Hin.
    apply In_nth_error in Hin; destruct Hin as [i Hr].
    apply (Hrow i r); [|assumption].
    assert (i < length out) by (apply nth_error_Some; congruence). lia.
Qed.

(** C4. For every row sequence whose [change] fields are populated, the
    dynamic-step loop returns, leaves [change] as it is, sets
    [dynamic_step[i]] to the arithmetic mean of the 364 stored values
    [change[i-363 .. i]] when [i >= 364] and leaves it as it came otherwise, and
    sets [step[i]] from [dynamic_step[i]] for every [i]; in the engine the rows
    come with [dynamic_step = 0.0], so that [dynamic_step[i]] is [0.0] for
    [i < 364] and the mean of the stored changes of the returned rows
    otherwise. *)
Theorem dynamic_step_postcondition (pi_data : list (PiCycleData D))
  (klines : list (Kline D)) (ym : D) (ndd : nat) :
  (exists rows, calc_dynamic_step pi_data = Some rows /\
     length rows = length pi_data /\
     forall i r0, nth_error pi_data i = Some r0 ->
       exists r, nth_error rows i = Some r /\
         change r = change r0 /\
         step r = dynamic_step r /\
         (364 <= i -> length (changes pi_data i) = 364) /\
         dynamic_step r
         = if 364 <=? i
           then (sum (rev (changes pi_data i)) / d_of_Z 364)%dbl
           else dynamic_step r0) /\
  (exists out, engine klines ym ndd = Some out /\
     length out = length klines /\
     forall i r, nth_error out i = Some r ->
       step r = dynamic_step r /\
       dynamic_step r
       = if 364 <=? i then (sum (rev (changes out i)) / d_of_Z 364)%dbl else 0.0).
Proof.
  split.
  - destruct (calc_dynamic_step_rows pi_data) as [rows [E [L H]]].
    exists rows; split; [assumption|]; split; [assumption|].
    intros i r0 Hr0. exists (step_row pi_data i r0).
    split; [now apply H|]. split; [apply change_step_row|].
    split; [unfold step_row; destruct (364 <=? i); reflexivity|].
    split.
    + intros Hi. assert (i < length pi_data) by (apply nth_error_Some; congruence).
      unfold changes. rewrite length_map, length_firstn, length_skipn. lia.
    + unfold step_row; destruct (364 <=? i); reflexivity.
  - destruct (engine_rows klines ym ndd)
      as [rows [pd1 [pd2 [out [E0 [_ [E [L0 [L1 [L2 [L3 [H0 [H1 [H2 H3]]]]]]]]]]]]]].
    exists out; split; [assumption|]; split; [assumption|].
    assert (Hmap : map change out = map change pd1).
    { apply map_agree; [congruence|].
      intros k a Hk. rewrite (H3 _ _ (H2 _ _ Hk)).
      eexists; split; [reflexivity|]. row_cases; reflexivity. }
    intros i r Hr.
    assert (Hlt : i < length klines).
    { rewrite <- L3; apply nth_error_Some; congruence. }
    destruct (nth_error klines i) as [k|] eqn:Ek.
    2:{ apply nth_error_None in Ek; lia. }
    rewrite (H3 _ _ (H2 _ _ (H1 _ _ (H0 _ _ Ek)))) in Hr.
    inversion Hr; subst r; clear Hr.
    rewrite (changes_agree out pd1 i Hmap).
    split; [row_cases; reflexivity|].
    destruct (364 <=? i) eqn:E364; unfold step_row, stats_row; rewrite E364;
      row_cases; reflexivity.
Qed.

Lemma price_back_agree (l1 l2 : list (PiCycleData D)) (n i : nat) :
  map price l1 = map price l2 -> price_back l1 n i = price_back l2 n i.
Proof.
  intros H; unfold price_back. destruct (n <=? i); [|reflexivity].
  now rewrite <- !nth_error_map, H.
Qed.

Lemma derived_fields (pi_data : list (PiCycleData D)) (ndd : nat) :
  exists out, add_calculated_fields pi_data ndd = Some out /\
    length out = length pi_data /\
    map price out = map price pi_data /\
    forall i r0, nth_error pi_data i = Some r0 ->
      exists r, nth_error out i = Some r /\
        price r = price r0 /\ median r = median r0 /\
        move r = match price_back pi_data 1 i with
                 | Some p => pct_or (move r0) (price r0) p
                 | None => move r0
                 end /\
        offset r = pct_or (offset r0) (price r0) (median r0) /\
        weeks_52 r = match price_back pi_data 364 i with
                     | Some p => pct_or (weeks_52 r0) (price r0) p
                     | None => weeks_52 r0
                     end.
Proof.
  destruct (add_calculated_fields_rows pi_data ndd)
    as [pd1 [pd2 [out [E [L1 [L2 [L3 [H1 [H2 H3]]]]]]]]].
  exists out; split; [assumption|]; split; [assumption|]. split.
  - apply map_agree; [assumption|].
    intros k a Hk. rewrite (H3 _ _ (H2 _ _ (H1 _ _ Hk))).
    eexists; split; [reflexivity|]. row_cases; reflexivity.
  - intros i r0 Hr0. eexists; split; [exact (H3 _ _ (H2 _ _ (H1 _ _ Hr0)))|].
    repeat split; row_cases; reflexivity.
Qed.

(** C5. The Derived Field Calculator returns on every row sequence (no
    vector access is out of range), and so does the engine on every price
    sequence.  In the returned rows [move] is [(price[i] - price[i-1]) /
    price[i-1] * 100] unless the row is the first or the previous price is
    zero, [offset] is [(price - median) / median * 100] unless the median is
    zero, and [weeks_52] is [(price[i] - price[i-364]) / price[i-364] * 100]
    unless [i < 364] or [price[i-364]] is zero; in each excepted case the
    field keeps the value it came with, which in the engine is [0.0]. *)
Theorem division_by_zero_policy (pi_data : list (PiCycleData D))
  (klines : list (Kline D)) (ym : D) (ndd : nat) :
  (exists out, add_calculated_fields pi_data ndd = Some out /\
     length out = length pi_data /\
     forall i r0, nth_error pi_data i = Some r0 ->
       exists r, nth_error out i = Some r /\
         price r = price r0 /\ median r = median r0 /\
         move r = match price_back pi_data 1 i with
                  | Some p => pct_or (move r0) (price r0) p
                  | None => move r0
                  end /\
         offset r = pct_or (offset r0) (price r0) (median r0) /\
         weeks_52 r = match price_back pi_data 364 i with
                      | Some p => pct_or (weeks_52 r0) (price r0) p
                      | None => weeks_52 r0
                      end) /\
  (exists out, engine klines ym ndd = Some out /\
     length out = length klines /\
     forall i k, nth_error klines i = Some k ->
       exists r, nth_error out i = Some r /\
         price r = k_price k /\
         move r = match price_back out 1 i with
                  | Some p => pct_or 0.0 (price r) p
                  | None => 0.0
                  end /\
         offset r = pct_or 0.0 (price r) (median r) /\
         weeks_52 r = match price_back out 364 i with
                      | Some p => pct_or 0.0 (price r) p
                      | None => 0.0
                      end).
Proof.
  split.
  - destruct (derived_fields pi_data ndd) as [out [E [L [_ H]]]].
    exists out; auto.
  - destruct (price_projection_rows klines ym) as [rows [E0 [L0 H0]]].
    destruct (derived_fields rows ndd) as [out [E [L [Hp H]]]].
    exists out. split; [unfold engine; rewrite E0; exact E|].
    split; [congruence|].
    intros i k Hk.
    destruct (H i _ (H0 i k Hk)) as [r [Hr [Hpr [Hmed [Hmv [Hoff Hw]]]]]].
    exists r; split; [assumption|].
    rewrite !(price_back_agree out rows) by assumption.
    rewrite Hmv, Hoff, Hw, Hpr, Hmed.
    repeat split; unfold stats_row; destruct (364 <=? i); reflexivity.
Qed.

End EngineClaims.

(** ** The band, as the program builds it *)

Section BandClaims.

Context {D : Type} {ops : DoubleOps D}.

(** C2, as amended. For every arithmetic on doubles, every price sequence
    and every index [i >= 364], the row of the Window Statistics Engine, and
    the row the engine returns, have [floor] equal to [ma_365], [ceiling]
    equal to the double [floor + 2 * std_365] and [median] equal to the
    double [(ceiling + floor) / 2], each operation rounded as the program
    rounds it: it is [floor], not [median], that equals the mean. *)
Theorem floor_is_the_mean (klines : list (Kline D)) (ym : D) (ndd : nat) :
  exists rows out,
    price_projection klines ym = Some rows /\
    engine klines ym ndd = Some out /\
    length rows = length klines /\ length out = length klines /\
    forall i r, 364 <= i -> nth_error rows i = Some r \/ nth_error out i = Some r ->
      floor r = ma_365 r /\
      ceiling r = (floor r + d_of_Z 2 * std_365 r)%dbl /\
      median r = ((ceiling r + floor r) / d_of_Q 2)%dbl.
Proof.
  destruct (engine_bands klines ym ndd) as [rows [out [E0 [E [L0 [L H]]]]]].
  exists rows, out. repeat (split; [assumption|]).
  intros i r Hi Hr.
  destruct (H i r Hr) as [k [_ [_ [Hma [Hsd [Hc [Hf Hm]]]]]]].
  rewrite Hf, Hc, Hm, Hma, Hsd. unfold stats_row.
  assert (E364 : (364 <=? i) = true) by (apply Nat.leb_le; assumption).
  rewrite E364. row_simpl. repeat split.
Qed.

End BandClaims.

(** ** The Zone Classifier *)

Section ZoneClaims.

Context {D : Type} {ops : DoubleOps D} {laws : DoubleLaws D}.

Notation "0.0" := (d_of_Q (D:=D) 0).

(** C6. The classification of a row is a total function of its [price],
    [median], [ceiling] and [floor] alone.  When [|price - median| <= median
    * 0.02] the row is in one of the three near-median zones, chosen by
    whether the price is above, below or at the median.  Otherwise, when
    [price >= median], with [frac = (price - median) / (ceiling - median)]
    if [ceiling - median > 0] and [frac = 0] if not, the zone is the topmost
    when [frac >= 0.575], the second when [frac >= 0.29] and the third
    otherwise; below the median the same holds of [(median - price) /
    (median - floor)] and the three bottom zones.  A degenerate band
    ([ceiling == median], or [median == floor]) gives the zone of lowest
    intensity on its side. *)
Theorem zone_classifier_algorithm (row : PiCycleData D) :
  let near := (d_abs (price row - median row) <= median row * d_of_Q 0.02)%dbl in
  let frac_above :=
    if (ceiling row - median row > d_of_Z 0)%dbl
    then ((price row - median row) / (ceiling row - median row))%dbl else 0.0 in
  let frac_below :=
    if (median row - floor row > d_of_Z 0)%dbl
    then ((median row - price row) / (median row - floor row))%dbl else 0.0 in
  (exists z, classify row = Some z) /\
  (forall row' : PiCycleData D,
     price row' = price row -> median row' = median row ->
     ceiling row' = ceiling row -> floor row' = floor row ->
     classify row' = classify row) /\
  (near = true ->
   classify row
   = Some (if (price row > median row)%dbl then near_median_above
           else if (price row < median row)%dbl then near_median_below
           else at_median)) /\
  (near = false -> (price row >= median row)%dbl = true ->
   classify row
   = Some (if (frac_above >= d_of_Q 0.575)%dbl then bright_high
           else if (frac_above >= d_of_Q 0.29)%dbl then high
           else mid_high)) /\
  (near = false -> (price row >= median row)%dbl = false ->
   classify row
   = Some (if (frac_below >= d_of_Q 0.575)%dbl then bright_low
           else if (frac_below >= d_of_Q 0.29)%dbl then low
           else mid_low)) /\
  (near = false -> (price row >= median row)%dbl = true ->
   (ceiling row == median row)%dbl = true -> classify row = Some mid_high) /\
  (near = false -> (price row >= median row)%dbl = false ->
   (median row == floor row)%dbl = true -> classify row = Some mid_low).
Proof.
  cbv zeta. unfold classify, row_color.
  split.
  { repeat match goal with
      | |- context [if ?b then _ else _] =>
          lazymatch b with
          | context [if _ then _ else _] => fail
          | _ => destruct b
          end
      end; eexists; reflexivity. }
  split.
  { intros row' Hp Hm Hc Hf. now rewrite Hp, Hm, Hc, Hf. }
  split.
  { intros Hn; rewrite Hn.
    destruct (d_ltb (median row) (price row)); [reflexivity|].
    destruct (d_ltb (price row) (median row)); reflexivity. }
  split.
  { intros Hn Hge; rewrite Hn, Hge.
    destruct (d_ltb (d_of_Z 0) (ceiling row - median row)%dbl).
    - destruct (d_leb (d_of_Q 0.575) _); [reflexivity|].
      destruct (d_leb (d_of_Q 0.29) _); reflexivity.
    - destruct (d_leb (d_of_Q 0.575) _); [reflexivity|].
      destruct (d_leb (d_of_Q 0.29) _); reflexivity. }
  split.
  { intros Hn Hge; rewrite Hn, Hge.
    destruct (d_ltb (d_of_Z 0) (median row - floor row)%dbl).
    - destruct (d_leb (d_of_Q 0.575) _); [reflexivity|].
      destruct (d_leb (d_of_Q 0.29) _); reflexivity.
    - destruct (d_leb (d_of_Q 0.575) _); [reflexivity|].
      destruct (d_leb (d_of_Q 0.29) _); reflexivity. }
  split.
  - intros Hn Hge Heq; rewrite Hn, Hge.
    rewrite (sub_eq_not_pos _ _ Heq), zero_below_0_575, zero_below_0_29.
    reflexivity.
  - intros Hn Hge Heq; rewrite Hn, Hge.
    rewrite (sub_eq_not_pos _ _ Heq), zero_below_0_575, zero_below_0_29.
    reflexivity.
Qed.

End ZoneClaims.

(** ** Rows on opposite sides of the median *)

Section SymmetryClaims.

Context {D : Type} {ops : DoubleOps D}.


End SymmetryClaims.

(** ** The projector and the program *)

Section ProgramClaims.

Context {D : Type} {ops : DoubleOps D}.

Notation "0.0" := (d_of_Q (D:=D) 0).

Lemma skipn_cons_nth {A : Type} (l : list A) (i : nat) (x : A) :
  nth_error l i = Some x -> skipn i l = x :: skipn (S i) l.
Proof.
  revert i; induction l as [|h t IH]; intros [|i] H; simpl in *; try discriminate.
  - now inversion H.
  - now apply IH.
Qed.

(** The loop of [prediction_target_step] adds up the steps of the rows from
    [lo] on, [fuel] of them at most, and counts them. *)
Lemma top_steps_loop (l : list (PiCycleData D)) (fuel lo : nat) (s : D) (c : Z) :
  lo + fuel = 30 ->
  for_while fuel lo (fun i => (i <? 30) && (i <? length l))
    (fun i st => r <- nth_error l i ;; Some ((fst st + step r)%dbl, (snd st + 1)%Z))
    (s, c)
  = Some (fold_left (fun acc r => (acc + step r)%dbl) (firstn fuel (skipn lo l)) s,
          (c + Z.of_nat (Nat.min fuel (length l - lo)))%Z).
Proof.
  revert lo s c; induction fuel as [|fuel IH]; intros lo s c H.
  - cbn [for_while firstn fold_left Nat.min]. now rewrite Z.add_0_r.
  - cbn [for_while].
    assert (E30 : (lo <? 30) = true) by (apply Nat.ltb_lt; lia).
    rewrite E30; cbn [andb].
    destruct (lo <? length l) eqn:El.
    + apply Nat.ltb_lt in El.
      destruct (nth_error l lo) as [r|] eqn:Er.
      2:{ apply nth_error_None in Er; lia. }
      cbn [bind fst snd]. rewrite IH by lia.
      rewrite (skipn_cons_nth l lo r Er). cbn [firstn fold_left].
      do 2 f_equal. lia.
    + apply Nat.ltb_ge in El.
      rewrite skipn_all2 by assumption. cbn [firstn fold_left].
      do 2 f_equal. lia.
Qed.

(** [prediction_target_step] returns on every row sequence. *)
Lemma prediction_target_step_result (g : Globals D) (l : list (PiCycleData D))
  (now_c end_2025_t : Z) :
  exists p, prediction_target_step g l now_c end_2025_t = Some p /\
    average_top_steps p
    = (if (Z.of_nat (Nat.min 30 (length l)) >? 0)%Z
       then (sum (map step (firstn 30 l)) / d_of_Z (Z.of_nat (Nat.min 30 (length l))))%dbl
       else 0.0) /\
    predicted_price_4w p = (first_row_baseline g + average_top_steps p * d_of_Z 30)%dbl.
Proof.
  unfold prediction_target_step; cbv zeta.
  rewrite (top_steps_loop l 30 0 0.0 0%Z eq_refl).
  cbn [bind fst snd skipn]. rewrite Nat.sub_0_r, Z.add_0_l.
  eexists; split; [reflexivity|].
  cbn [average_top_steps predicted_price_4w].
  unfold sum; rewrite fold_left_map. split; reflexivity.
Qed.

(** C8. For every non-empty row sequence, most recent row first,
    [display_public] followed by [prediction_target_step] returns; the
    smoothed drift is the arithmetic mean of the [step] values of the first
    [min 30 length] rows (with fewer than 30 rows, of all of them), and the
    +4w estimate is the [median] of the most recent row plus 30 times the
    drift. *)
Theorem projector_postcondition (g : Globals D) (first_row : PiCycleData D)
  (rest : list (PiCycleData D)) (now_c end_2025_t : Z) :
  let rows := first_row :: rest in
  let n := Nat.min 30 (length rows) in
  exists p,
    prediction_target_step (fst (display_public g rows)) rows now_c end_2025_t = Some p /\
    length (firstn 30 rows) = n /\
    average_top_steps p = (sum (map step (firstn 30 rows)) / d_of_Z (Z.of_nat n))%dbl /\
    predicted_price_4w p = (median first_row + average_top_steps p * d_of_Z 30)%dbl.
Proof.
  cbv zeta.
  destruct (prediction_target_step_result
              (fst (display_public g (first_row :: rest))) (first_row :: rest)
              now_c end_2025_t) as [p [E [Ha H4]]].
  exists p; split; [assumption|].
  split; [apply length_firstn|].
  split; [|exact H4].
  rewrite Ha.
  assert (Hpos : (Z.of_nat (Nat.min 30 (length (first_row :: rest))) >? 0)%Z = true).
  { apply Z.gtb_lt. cbn [length]. lia. }
  now rewrite Hpos.
Qed.

End ProgramClaims.

(** ** The band on binary64 *)


Section Binary64Band.

Variable pow2 : float -> float.


End Binary64Band.

(** ** The scenarios, evaluated on binary64 *)

(** Scenario A: a flat series has zero deviation, the band collapses on
    the price and the row is at the median. *)
Example scenario_A_last_row :
  exists r, last_row scenario_A = Some r /\
    ma_365 r = 100%float /\ std_365 r = 0%float /\ ceiling r = 100%float /\
    floor r = 100%float /\ median r = 100%float /\ offset r = 0%float /\
    classify r = Some at_median.
Proof.
  eexists; split; [vm_compute; reflexivity|].
  repeat split.
Qed.

(** Scenario B: the band is strictly ordered, the last row is in the
    topmost zone, and the two gaps agree with the standard deviation within
    the tolerance. *)
Example scenario_B_last_row :
  last_row scenario_B = Some scenario_B_row /\
  PrimFloat.ltb (floor scenario_B_row) (median scenario_B_row) = true /\
  PrimFloat.ltb (median scenario_B_row) (ceiling scenario_B_row) = true /\
  classify scenario_B_row = Some bright_high /\
  within_tolerance (median scenario_B_row - floor scenario_B_row)
    (std_365 scenario_B_row) = true /\
  within_tolerance (ceiling scenario_B_row - median scenario_B_row)
    (std_365 scenario_B_row) = true.
Proof.
  repeat split; vm_compute; reflexivity.
Qed.

(** C2, refuted on scenario B: at index 364 the engine, run on binary64,
    returns a row whose [median] is not [ma_365] and whose
    [ceiling - median] is not [2 * std_365], by far more than the relative
    tolerance 1e-9. *)
Lemma median_is_not_the_mean :
  exists rows r,
    price_projection scenario_B (d_of_Q 1) = Some rows /\
    nth_error rows 364 = Some r /\
    within_tolerance (median r) (ma_365 r) = false /\
    within_tolerance (ceiling r - median r) (2 * std_365 r) = false.
Proof.
  eexists; eexists.
  split; [vm_compute; reflexivity|].
  split; [vm_compute; reflexivity|].
  split; vm_compute; reflexivity.
Qed.



(** ** Witnesses *)

(** Scenario B, index 364: the mean is 36530/365, about 100.08, and the
    deviation, of one price at 130 among 364 at 100, about 1.568. *)
Lemma window_statistics_postcondition_witness :
  exists rows r,
    price_projection scenario_B (d_of_Q 1) = Some rows /\
    nth_error rows 364 = Some r /\
    ma_365 r = (sum (window scenario_B 364) / d_of_Q 365)%dbl /\
    ma_365 r = d_of_Q (36530 # 365) /\
    std_365 r = 0x1.9170431f70231p+0%float /\
    floor r = ma_365 r.
Proof.
  destruct (window_statistics_postcondition scenario_B (d_of_Q 1))
    as [rows [E [L H]]].
  destruct (H 364) as [r [Hr [_ [_ [Hma [Hsd [_ [Hf _]]]]]]]].
  - apply le_n.
  - vm_compute; apply le_n.
  - exists rows, r. split; [exact E|]. split; [exact Hr|]. split; [exact Hma|].
    split; [rewrite Hma; vm_compute; reflexivity|].
    split; [rewrite Hsd, Hma; vm_compute; reflexivity | exact Hf].
Defined.

(** Scenario C: 364 prices, and every returned row is at the sentinel. *)
Lemma insufficient_history_sentinel_witness :
  exists out,
    engine scenario_C (d_of_Q 1) 33 = Some out /\
    length out = 364 /\
    forall r, In r out ->
      ma_365 r = 0%float /\ std_365 r = 0%float /\ ceiling r = 0%float /\
      floor r = 0%float /\ median r = 0%float /\ weeks_52 r = 0%float.
Proof.
  destruct (insufficient_history_sentinel scenario_C (d_of_Q 1) 33)
    as [rows [out [_ [E [_ [L [_ H]]]]]]].
  exists out. split; [exact E|]. split; [exact L|].
  apply H. reflexivity.
Defined.

(** Scenario B: the last row has the mean of the last 364 changes, 30/364,
    as its step. *)
Lemma dynamic_step_postcondition_witness :
  exists out r,
    engine scenario_B (d_of_Q 1) 33 = Some out /\
    nth_error out 364 = Some r /\
    step r = dynamic_step r /\
    dynamic_step r = (sum (rev (changes out 364)) / d_of_Z 364)%dbl.
Proof.
  destruct (dynamic_step_postcondition [] scenario_B (d_of_Q 1) 33)
    as [_ [out [E [L H]]]].
  destruct (nth_error out 364) as [r|] eqn:Er.
  - exists out, r. destruct (H 364 r Er) as [Hs Hd].
    repeat (split; [assumption|]). exact Hd.
  - apply nth_error_None in Er. rewrite L in Er.
    vm_compute in Er. exfalso. apply (Nat.nle_succ_diag_l 364 Er).
Defined.

(** Scenario B: the first row has no percentage moves, the last one moves
    by 30%. *)
Lemma division_by_zero_policy_witness :
  exists out r0 r,
    engine scenario_B (d_of_Q 1) 33 = Some out /\
    nth_error out 0 = Some r0 /\ nth_error out 364 = Some r /\
    move r0 = 0%float /\ weeks_52 r0 = 0%float /\ offset r0 = 0%float /\
    move r = pct_or (d_of_Q 0) (d_of_Q 130) (d_of_Q 100) /\
    pct_or (d_of_Q 0) (d_of_Q 130) (d_of_Q 100) = 30%float.
Proof.
  destruct (division_by_zero_policy [] scenario_B (d_of_Q 1) 33)
    as [_ [out [E [L H]]]].
  destruct (H 0 (mkKline EmptyString (d_of_Q 100)) eq_refl)
    as [r0 [Hr0 [Hp0 [Hm0 [Ho0 Hw0]]]]].
  destruct (H 364 (mkKline EmptyString (d_of_Q 130)) eq_refl)
    as [r [Hr [Hp [Hm _]]]].
  exists out, r0, r. repeat (split; [assumption|]).
  assert (Eo : exists l, out = l /\ engine scenario_B (d_of_Q 1) 33 = Some l).
  { exists out; split; [reflexivity | exact E]. }
  destruct Eo as [l [El Eo]]. vm_compute in Eo. inversion Eo as [Eq]; clear Eo.
  rewrite El, <- Eq in Hr0, Hr. vm_compute in Hr0, Hr.
  inversion Hr0; inversion Hr.
  repeat split; vm_compute; reflexivity.
Defined.

(** Scenario D: ten rows instead of thirty; the drift is the mean 5.5 of the
    ten steps and the +4w estimate 100 + 30 * 5.5. *)
Lemma projector_postcondition_witness :
  exists p,
    prediction_target_step (fst (display_public initial_globals ten_rows)) ten_rows 0 0
    = Some p /\
    average_top_steps p = 5.5%float /\
    predicted_price_4w p = 265%float.
Proof.
  destruct (projector_postcondition (D:=float) initial_globals
              (set_median (d_of_Q 100) (set_step (d_of_Z 1) default_row))
              (map (fun z => set_median (d_of_Q 100) (set_step (d_of_Z z) default_row))
                 [2; 3; 4; 5; 6; 7; 8; 9; 10]%Z) 0 0)
    as [p [E [_ [Ha H4]]]].
  exists p. split; [exact E|].
  assert (Hav : average_top_steps p = 5.5%float).
  { rewrite Ha; vm_compute; reflexivity. }
  split; [exact Hav|].
  rewrite H4, Hav; vm_compute; reflexivity.
Defined.

Lemma zone_classifier_algorithm_witness :
  classify scenario_B_row = Some bright_high /\
  exists z, classify scenario_B_row = Some z.
Proof.
  split; [vm_compute; reflexivity|].
  exact (proj1 (zone_classifier_algorithm (D:=float) scenario_B_row)).
Defined.


(** ** Each row is a function of the trailing 365 prices *)

Section EngineLocality.

Context {D : Type} {ops : DoubleOps D}.

(** The prices the Window Statistics Engine copies into its rows. *)
Lemma rows_price (klines : list (Kline D)) (rows : list (PiCycleData D)) :
  length rows = length klines ->
  (forall i k, nth_error klines i = Some k ->
     nth_error rows i = Some (stats_row klines i k)) ->
  forall m, option_map price (nth_error rows m) = option_map k_price (nth_error klines m).
Proof.
  intros L H m. destruct (nth_error klines m) as [k|] eqn:Ek.
  - rewrite (H m k Ek). cbn [option_map]. f_equal.
    unfold stats_row; destruct (364 <=? m); reflexivity.
  - assert (Hn : nth_error rows m = None).
    { apply nth_error_None; apply nth_error_None in Ek; lia. }
    now rewrite Hn.
Qed.

Lemma price_back_klines (klines : list (Kline D)) (rows : list (PiCycleData D))
  (n i : nat) :
  length rows = length klines ->
  (forall i k, nth_error klines i = Some k ->
     nth_error rows i = Some (stats_row klines i k)) ->
  price_back rows n i
  = if n <=? i then option_map k_price (nth_error klines (i - n)) else None.
Proof.
  intros L H. unfold price_back. destruct (n <=? i); [|reflexivity].
  now apply rows_price.
Qed.

(** The changes the first loop stores, read off the prices. *)
Lemma stored_change (klines : list (Kline D)) (rows pd1 : list (PiCycleData D)) :
  length rows = length klines -> length pd1 = length klines ->
  (forall i k, nth_error klines i = Some k ->
     nth_error rows i = Some (stats_row klines i k)) ->
  (forall i r, nth_error rows i = Some r ->
     nth_error pd1 i = Some (change_row (price_back rows 1 i) r)) ->
  forall m, 1 <= m ->
    option_map change (nth_error pd1 m) = change_at klines m.
Proof.
  intros L0 L1 H0 H1 m Hm. unfold change_at.
  destruct (nth_error klines m) as [a|] eqn:Ea.
  - assert (Hlt : m < length klines) by (apply nth_error_Some; congruence).
    destruct (nth_error klines (m - 1)) as [b|] eqn:Eb.
    2:{ apply nth_error_None in Eb; lia. }
    rewrite (H1 _ _ (H0 _ _ Ea)); cbn [option_map].
    rewrite (price_back_klines klines rows 1 m L0 H0).
    assert (E1 : (1 <=? m) = true) by (apply Nat.leb_le; assumption).
    rewrite E1, Eb; cbn [option_map]. f_equal.
    unfold change_row, stats_row.
    destruct (negb (d_eqb (k_price b) (d_of_Z 0))); destruct (364 <=? m); reflexivity.
  - assert (Hn : nth_error pd1 m = None).
    { apply nth_error_None; apply nth_error_None in Ea; lia. }
    now rewrite Hn.
Qed.

Lemma window_local (kl1 kl2 : list (Kline D)) (i1 i2 : nat) :
  364 <= i1 -> 364 <= i2 ->
  (forall j, j <= 364 -> nth_error kl1 (i1 - j) = nth_error kl2 (i2 - j)) ->
  window kl1 i1 = window kl2 i2.
Proof.
  intros H1 H2 H. unfold window. f_equal.
  apply nth_error_ext; intros j.
  rewrite !nth_error_firstn. destruct (j <? 365) eqn:Ej; [|reflexivity].
  apply Nat.ltb_lt in Ej. rewrite !nth_error_skipn.
  replace (i1 - 364 + j) with (i1 - (364 - j)) by lia.
  replace (i2 - 364 + j) with (i2 - (364 - j)) by lia.
  apply H; lia.
Qed.

Lemma changes_local (kl1 kl2 : list (Kline D)) (pa pb : list (PiCycleData D))
  (i1 i2 : nat) :
  364 <= i1 -> 364 <= i2 ->
  (forall m, 1 <= m -> option_map change (nth_error pa m) = change_at kl1 m) ->
  (forall m, 1 <= m -> option_map change (nth_error pb m) = change_at kl2 m) ->
  (forall j, j <= 364 -> nth_error kl1 (i1 - j) = nth_error kl2 (i2 - j)) ->
  changes pa i1 = changes pb i2.
Proof.
  intros H1 H2 Ha Hb H. unfold changes.
  apply nth_error_ext; intros j.
  rewrite !nth_error_map, !nth_error_firstn.
  destruct (j <? 364) eqn:Ej; [|reflexivity].
  apply Nat.ltb_lt in Ej. rewrite !nth_error_skipn.
  rewrite Ha, Hb by lia. unfold change_at.
  replace (i1 - 363 + j) with (i1 - (363 - j)) by lia.
  replace (i2 - 363 + j) with (i2 - (363 - j)) by lia.
  replace (i1 - (363 - j) - 1) with (i1 - (364 - j)) by lia.
  replace (i2 - (363 - j) - 1) with (i2 - (364 - j)) by lia.
  rewrite (H (363 - j)), (H (364 - j)) by lia. reflexivity.
Qed.

(** Row [i1] of the engine on one series and row [i2] of the engine on
    another are the same row when the two series agree on the (at most) 365
    klines that end at [i1] and at [i2], and [i1 = i2] or both have a full
    window. *)
Lemma engine_row_local (kl1 kl2 : list (Kline D)) (ym1 ym2 : D) (ndd1 ndd2 i1 i2 : nat) :
  i1 = i2 \/ (364 <= i1 /\ 364 <= i2) ->
  (forall j, j <= 364 -> j <= i1 -> nth_error kl1 (i1 - j) = nth_error kl2 (i2 - j)) ->
  i1 < length kl1 ->
  exists out1 out2 r,
    engine kl1 ym1 ndd1 = Some out1 /\ engine kl2 ym2 ndd2 = Some out2 /\
    nth_error out1 i1 = Some r /\ nth_error out2 i2 = Some r.
Proof.
  intros Hi H Hlt.
  destruct (engine_rows kl1 ym1 ndd1)
    as [ra [pa [qa [oa [_ [_ [Ea [La0 [La1 [La2 [La3 [Ha0 [Ha1 [Ha2 Ha3]]]]]]]]]]]]]].
  destruct (engine_rows kl2 ym2 ndd2)
    as [rb [pb [qb [ob [_ [_ [Eb [Lb0 [Lb1 [Lb2 [Lb3 [Hb0 [Hb1 [Hb2 Hb3]]]]]]]]]]]]]].
  destruct (nth_error kl1 i1) as [k|] eqn:Ek1.
  2:{ apply nth_error_None in Ek1; lia. }
  assert (Ek2 : nth_error kl2 i2 = Some k).
  { rewrite <- Ek1. symmetry.
    rewrite <- (Nat.sub_0_r i1), <- (Nat.sub_0_r i2). apply H; lia. }
  exists oa, ob. eexists.
  split; [exact Ea|]. split; [exact Eb|].
  split; [exact (Ha3 _ _ (Ha2 _ _ (Ha1 _ _ (Ha0 _ _ Ek1))))|].
  rewrite (Hb3 _ _ (Hb2 _ _ (Hb1 _ _ (Hb0 _ _ Ek2)))).
  rewrite !(price_back_klines kl1 ra) by assumption.
  rewrite !(price_back_klines kl2 rb) by assumption.
  assert (E364 : (364 <=? i2) = (364 <=? i1)).
  { destruct Hi as [->|[Hx Hy]]; [reflexivity|].
    apply Nat.leb_le in Hx, Hy. congruence. }
  assert (E1 : (1 <=? i2) = (1 <=? i1)).
  { destruct Hi as [->|[Hx Hy]]; [reflexivity|].
    assert (X : (1 <=? i1) = true) by (apply Nat.leb_le; lia).
    assert (Y : (1 <=? i2) = true) by (apply Nat.leb_le; lia). congruence. }
  rewrite E364, E1.
  assert (B364 : (if 364 <=? i1 then option_map k_price (nth_error kl2 (i2 - 364))
                  else None)
                 = (if 364 <=? i1 then option_map k_price (nth_error kl1 (i1 - 364))
                    else None)).
  { destruct (364 <=? i1) eqn:E; [|reflexivity].
    apply Nat.leb_le in E. rewrite (H 364) by lia. reflexivity. }
  assert (B1 : (if 1 <=? i1 then option_map k_price (nth_error kl2 (i2 - 1)) else None)
               = (if 1 <=? i1 then option_map k_price (nth_error kl1 (i1 - 1)) else None)).
  { destruct (1 <=? i1) eqn:E; [|reflexivity].
    apply Nat.leb_le in E. rewrite (H 1) by lia. reflexivity. }
  rewrite B364, B1.
  assert (S0 : stats_row kl2 i2 k = stats_row kl1 i1 k).
  { unfold stats_row. rewrite E364.
    destruct (364 <=? i1) eqn:E; [|reflexivity].
    apply Nat.leb_le in E.
    assert (364 <= i2) by (destruct Hi as [<-|[_ Hy]]; assumption).
    rewrite (window_local kl1 kl2 i1 i2) by (try assumption; intros; apply H; lia).
    reflexivity. }
  rewrite S0.
  assert (S1 : forall x, step_row pb i2 x = step_row pa i1 x).
  { intros x. unfold step_row. rewrite E364.
    destruct (364 <=? i1) eqn:E; [|reflexivity].
    apply Nat.leb_le in E.
    assert (364 <= i2) by (destruct Hi as [<-|[_ Hy]]; assumption).
    rewrite (changes_local kl1 kl2 pa pb i1 i2); try assumption; try reflexivity.
    - now apply (stored_change kl1 ra pa).
    - now apply (stored_change kl2 rb pb).
    - intros; apply H; lia. }
  rewrite S1. reflexivity.
Qed.

End EngineLocality.

Section EngineLocalityFacts.

Context {D : Type} {ops : DoubleOps D}.

(** X1. No lookahead: appending later klines to a series leaves the rows
    already computed as they are, whatever the two unused parameters
    ([yearly_multiplier], [num_display_days]) are. *)
Theorem engine_no_lookahead (klines more : list (Kline D)) (ym ym' : D)
  (ndd ndd' : nat) :
  exists out out',
    engine klines ym ndd = Some out /\
    engine (klines ++ more) ym' ndd' = Some out' /\
    length out' = length klines + length more /\
    firstn (length klines) out' = out.
Proof.
  destruct (engine_rows klines ym ndd)
    as [ra [pa [qa [out [_ [_ [Ea [_ [_ [_ [La _]]]]]]]]]]].
  destruct (engine_rows (klines ++ more) ym' ndd')
    as [rb [pb [qb [out' [_ [_ [Eb [_ [_ [_ [Lb _]]]]]]]]]]].
  exists out, out'. split; [exact Ea|]. split; [exact Eb|].
  split; [now rewrite Lb, length_app|].
  apply nth_error_ext; intros i. rewrite nth_error_firstn.
  destruct (i <? length klines) eqn:Ei.
  - apply Nat.ltb_lt in Ei.
    destruct (engine_row_local klines (klines ++ more) ym ym' ndd ndd' i i)
      as [o1 [o2 [r [E1 [E2 [R1 R2]]]]]]; auto.
    + intros j _ Hj. symmetry. apply nth_error_app1. lia.
    + rewrite Ea in E1; rewrite Eb in E2.
      inversion E1; inversion E2; subst. congruence.
  - apply Nat.ltb_ge in Ei. symmetry. apply nth_error_None. lia.
Qed.

(** X2. Finite memory: for [i >= 364], row [i] of the engine is row 364 of the
    engine run on the 365 klines [i-364 .. i] alone; every field of the row,
    [dynamic_step] and [weeks_52] included, is a function of these 365
    klines. *)
Theorem engine_row_of_window (klines : list (Kline D)) (ym ym' : D)
  (ndd ndd' i : nat) :
  364 <= i -> i < length klines ->
  exists out out' r,
    engine klines ym ndd = Some out /\
    engine (firstn 365 (skipn (i - 364) klines)) ym' ndd' = Some out' /\
    length out' = 365 /\
    nth_error out i = Some r /\ nth_error out' 364 = Some r.
Proof.
  intros Hi Hlt.
  destruct (engine_row_local klines (firstn 365 (skipn (i - 364) klines))
              ym ym' ndd ndd' i 364) as [out [out' [r [E1 [E2 [R1 R2]]]]]].
  - right; split; [assumption | apply le_n].
  - intros j Hj _.
    rewrite nth_error_firstn.
    assert (E : (364 - j <? 365) = true) by (apply Nat.ltb_lt; lia).
    rewrite E, nth_error_skipn. f_equal. lia.
  - assumption.
  - exists out, out', r. repeat (split; [assumption|]).
    split; [|split; assumption].
    destruct (engine_rows (firstn 365 (skipn (i - 364) klines)) ym' ndd')
      as [rb [pb [qb [ob [_ [_ [Eb [_ [_ [_ [Lb _]]]]]]]]]]].
    rewrite Eb in E2; inversion E2; subst ob.
    rewrite Lb, length_firstn, length_skipn. lia.
Qed.

End EngineLocalityFacts.

(** ** What [main] shows *)

Lemma nth_error_rev_hd {A : Type} (l : list A) :
  1 <= length l -> nth_error l (length l - 1) = hd_error (rev l).
Proof.
  intros H. destruct (rev l) as [|h t] eqn:Er.
  - apply (f_equal (@length A)) in Er. rewrite length_rev in Er. cbn in Er. lia.
  - cbn [hd_error].
    assert (El : l = rev t ++ [h]).
    { rewrite <- (rev_involutive l), Er. reflexivity. }
    rewrite El, length_app, length_rev. cbn [length].
    rewrite nth_error_app2 by (rewrite length_rev; lia).
    rewrite length_rev. replace (length t + 1 - 1 - length t) with 0 by lia.
    reflexivity.
Qed.

Section MainFacts.

Context {D : Type} {ops : DoubleOps D}.

(** The rows [main] hands to [display_public] and to
    [prediction_target_step]: the last [k] rows, the most recent first. *)
Lemma displayed_rows {A : Type} (l : list A) (k : nat) :
  rev (if k <? length l then skipn (length l - k) l else l) = firstn k (rev l).
Proof.
  destruct (k <? length l) eqn:E.
  - now rewrite firstn_rev.
  - apply Nat.ltb_ge in E. rewrite firstn_all2; [reflexivity|].
    now rewrite length_rev.
Qed.

Lemma firstn_min_length {A : Type} (l : list A) (n : nat) :
  firstn (Nat.min n (length l)) l = firstn n l.
Proof.
  destruct (Nat.le_ge_cases n (length l)) as [H|H].
  - now rewrite Nat.min_l.
  - rewrite Nat.min_r by assumption. now rewrite !firstn_all2.
Qed.

(** The run of [main] on a non-empty series, step by step. *)
Lemma main_result (g : Globals D) (k : Kline D) (rest : list (Kline D)) (ndd : nat)
  (avg : D) (now_c end_2025_t : Z) :
  let klines := k :: rest in
  let shown := if ndd <? 33 then 33 else ndd in
  exists out last p,
    engine klines (avg / d_of_Q 100 + d_of_Z 1)%dbl shown = Some out /\
    length out = length klines /\
    nth_error out (length rest) = Some last /\
    hd_error (rev out) = Some last /\
    prediction_target_step
      (mkGlobals (weeks_52 last) (median last) (price last) (step last))
      (firstn shown (rev out)) now_c end_2025_t = Some p /\
    main g klines ndd avg now_c end_2025_t
    = Some (mkGlobals (weeks_52 last) (median last) (price last) (step last),
            Some (mkReport out (map row_color (firstn shown (rev out))) p)).
Proof.
  cbv zeta. set (shown := if ndd <? 33 then 33 else ndd).
  destruct (engine_rows (k :: rest) (avg / d_of_Q 100 + d_of_Z 1)%dbl shown)
    as [ra [pa [qa [out [_ [_ [E [_ [_ [_ [L _]]]]]]]]]]].
  cbn [length] in L.
  destruct (nth_error out (length rest)) as [last|] eqn:El.
  2:{ apply nth_error_None in El; lia. }
  assert (Hhd : hd_error (rev out) = Some last).
  { rewrite <- (nth_error_rev_hd out). 2: lia.
    replace (length out - 1) with (length rest) by lia. exact El. }
  destruct (prediction_target_step_result
              (mkGlobals (weeks_52 last) (median last) (price last) (step last))
              (firstn shown (rev out)) now_c end_2025_t) as [p [Ep _]].
  exists out, last, p.
  split; [exact E|]. split; [exact L|]. split; [exact El|].
  split; [exact Hhd|]. split; [exact Ep|].
  unfold main. fold shown. rewrite E; cbn [bind].
  rewrite displayed_rows.
  assert (Hs : exists tl, firstn shown (rev out) = last :: tl).
  { destruct (rev out) as [|h t] eqn:Er; [discriminate|].
    cbn in Hhd; inversion Hhd; subst h.
    assert (Hpos : exists s', shown = S s').
    { destruct shown as [|s'] eqn:Es; [|now exists s'].
      subst shown. destruct (ndd <? 33) eqn:En; [discriminate|].
      apply Nat.ltb_ge in En. lia. }
    destruct Hpos as [s' ->]. cbn [firstn]. now eexists. }
  destruct Hs as [tl Hs].
  unfold display_public. rewrite Hs. rewrite <- Hs.
  rewrite Ep; cbn [bind]. reflexivity.
Qed.

(** The three numbers [prediction_target_step] prints. *)
Lemma prediction_target_step_full (g : Globals D) (l : list (PiCycleData D))
  (now_c end_2025_t : Z) :
  exists p, prediction_target_step g l now_c end_2025_t = Some p /\
    average_top_steps p
    = (if (Z.of_nat (Nat.min 30 (length l)) >? 0)%Z
       then (sum (map step (firstn 30 l)) / d_of_Z (Z.of_nat (Nat.min 30 (length l))))%dbl
       else d_of_Q 0) /\
    predicted_price_4w p = (first_row_baseline g + average_top_steps p * d_of_Z 30)%dbl /\
    predicted_price_2025 p
    = (first_row_baseline g
       + average_top_steps p * d_of_Z (Z.quot (end_2025_t - now_c) 86400))%dbl.
Proof.
  unfold prediction_target_step; cbv zeta.
  rewrite (top_steps_loop l 30 0 (d_of_Q 0) 0%Z eq_refl).
  cbn [bind fst snd skipn]. rewrite Nat.sub_0_r, Z.add_0_l.
  eexists; split; [reflexivity|].
  cbn [average_top_steps predicted_price_4w predicted_price_2025].
  unfold sum; rewrite fold_left_map. repeat split.
Qed.

Lemma shown_max (ndd : nat) : (if ndd <? 33 then 33 else ndd) = Nat.max 33 ndd.
Proof.
  destruct (ndd <? 33) eqn:E.
  - apply Nat.ltb_lt in E. lia.
  - apply Nat.ltb_ge in E. lia.
Qed.

(** X3. On a non-empty series [main] returns, reports the rows of the engine,
    and shows the last [max 33 num_display_days] of them (all of them when
    there are fewer), the most recent first: the [j]-th colour shown is that
    of row [n - 1 - j]; the globals it leaves are the [weeks_52], [median],
    [price] and [step] of the most recent row. *)
Theorem main_shows_latest_rows (g : Globals D) (k : Kline D) (rest : list (Kline D))
  (ndd : nat) (avg : D) (now_c end_2025_t : Z) :
  let klines := k :: rest in
  let n := length klines in
  let shown := Nat.max 33 ndd in
  exists out last g' rep,
    main g klines ndd avg now_c end_2025_t = Some (g', Some rep) /\
    engine klines (avg / d_of_Q 100 + d_of_Z 1)%dbl shown = Some out /\
    rep_rows rep = out /\
    nth_error out (n - 1) = Some last /\
    g' = mkGlobals (weeks_52 last) (median last) (price last) (step last) /\
    length (rep_colors rep) = Nat.min shown n /\
    forall j, j < Nat.min shown n ->
      nth_error (rep_colors rep) j = option_map row_color (nth_error out (n - 1 - j)).
Proof.
  cbv zeta.
  destruct (main_result g k rest ndd avg now_c end_2025_t)
    as [out [last [p [E [L [El [_ [_ Em]]]]]]]].
  rewrite shown_max in E, Em.
  eexists out, last, _, _. split; [exact Em|].
  split; [exact E|]. split; [reflexivity|].
  cbn [length] in L |- *.
  assert (Hn1 : S (length rest) - 1 = length rest) by lia.
  split; [rewrite Hn1; exact El|]. split; [reflexivity|].
  cbn [rep_colors]. split.
  - rewrite length_map, length_firstn, length_rev, L. reflexivity.
  - intros j Hj.
    rewrite nth_error_map, nth_error_firstn.
    assert (E1 : (j <? Nat.max 33 ndd) = true) by (apply Nat.ltb_lt; lia).
    rewrite E1, nth_error_rev.
    assert (E2 : (j <? length out) = true) by (apply Nat.ltb_lt; lia).
    rewrite E2, L. do 2 f_equal. lia.
Qed.

(** X4. In [main] the projector is never short of rows because of the
    display window: on a series of [n >= 1] rows the drift is the mean of the
    [step] values of the last [min 30 n] rows of the whole series (added up
    from the most recent one), the +4w estimate is the [median] of the most
    recent row plus 30 times the drift, and the 2025 estimate that median
    plus the drift times the whole days from [now_c] to [end_2025_t]
    (rounded towards zero). *)
Theorem main_projects_from_latest_rows (g : Globals D) (k : Kline D)
  (rest : list (Kline D)) (ndd : nat) (avg : D) (now_c end_2025_t : Z) :
  let klines := k :: rest in
  let n := length klines in
  exists out last g' rep,
    main g klines ndd avg now_c end_2025_t = Some (g', Some rep) /\
    rep_rows rep = out /\ length out = n /\
    nth_error out (n - 1) = Some last /\
    average_top_steps (rep_prediction rep)
    = (sum (map step (firstn 30 (rev out))) / d_of_Z (Z.of_nat (Nat.min 30 n)))%dbl /\
    predicted_price_4w (rep_prediction rep)
    = (median last + average_top_steps (rep_prediction rep) * d_of_Z 30)%dbl /\
    predicted_price_2025 (rep_prediction rep)
    = (median last
       + average_top_steps (rep_prediction rep)
         * d_of_Z (Z.quot (end_2025_t - now_c) 86400))%dbl.
Proof.
  cbv zeta.
  destruct (main_result g k rest ndd avg now_c end_2025_t)
    as [out [last [p [E [L [El [_ [Ep Em]]]]]]]].
  rewrite shown_max in E, Ep, Em.
  destruct (prediction_target_step_full
              (mkGlobals (weeks_52 last) (median last) (price last) (step last))
              (firstn (Nat.max 33 ndd) (rev out)) now_c end_2025_t)
    as [p' [Ep' [Ha [H4 H5]]]].
  rewrite Ep in Ep'; inversion Ep'; subst p'; clear Ep'.
  eexists out, last, _, _. split; [exact Em|]. split; [reflexivity|].
  cbn [length] in L |- *.
  assert (Hn1 : S (length rest) - 1 = length rest) by lia.
  split; [exact L|]. split; [rewrite Hn1; exact El|].
  cbn [rep_prediction]. cbn [first_row_baseline] in H4, H5.
  split; [|split; assumption].
  rewrite Ha.
  rewrite length_firstn, length_rev, L, firstn_firstn.
  replace (Nat.min 30 (Nat.min (Nat.max 33 ndd) (S (length rest))))
    with (Nat.min 30 (S (length rest))) by lia.
  replace (Nat.min 30 (Nat.max 33 ndd)) with 30 by lia.
  assert (Hpos : (Z.of_nat (Nat.min 30 (S (length rest))) >? 0)%Z = true).
  { apply Z.gtb_lt. lia. }
  now rewrite Hpos.
Qed.

End MainFacts.

(** ** [format_numeric]: searching and cutting strings *)

Lemma find_from_absent (c : ascii) (s : list ascii) (i : Z) :
  ~ In c s -> find_from c s i = npos.
Proof.
  revert i. induction s as [|x t IH]; intros i Hn; [reflexivity|].
  cbn [find_from]. destruct (Ascii.eqb_spec x c) as [->|Hne].
  - exfalso. apply Hn. left. reflexivity.
  - apply IH. intros Hin. apply Hn. right. exact Hin.
Qed.

Lemma find_from_first (c : ascii) (a b : list ascii) (i : Z) :
  ~ In c a -> find_from c (a ++ c :: b) i = (i + Z.of_nat (length a))%Z.
Proof.
  revert i. induction a as [|x t IH]; intros i Hn.
  - cbn. rewrite Ascii.eqb_refl. lia.
  - cbn [app find_from]. destruct (Ascii.eqb_spec x c) as [->|Hne].
    + exfalso. apply Hn. left. reflexivity.
    + rewrite IH by (intros Hin; apply Hn; right; exact Hin).
      cbn [length]. lia.
Qed.

Lemma find_absent (c : ascii) (s : list ascii) : ~ In c s -> find c s = npos.
Proof. apply find_from_absent. Qed.

Lemma find_first (c : ascii) (a b : list ascii) :
  ~ In c a -> find c (a ++ c :: b) = Z.of_nat (length a).
Proof. intros Hn. unfold find. rewrite find_from_first by exact Hn. lia. Qed.

(** A string either lacks [c] or splits at its first [c]. *)
Lemma first_split (c : ascii) (s : list ascii) :
  ~ In c s \/ exists a b, s = a ++ c :: b /\ ~ In c a.
Proof.
  induction s as [|x t IH].
  - left. intros [].
  - destruct (Ascii.eqb_spec x c) as [->|Hne].
    + right. exists [], t. split; [reflexivity|intros []].
    + destruct IH as [Hn|(a & b & -> & Hn)].
      * left. intros [H|H]; [exact (Hne H)|exact (Hn H)].
      * right. exists (x :: a), b. split; [reflexivity|].
        intros [H|H]; [exact (Hne H)|exact (Hn H)].
Qed.

Lemma substr_prefix (a b : list ascii) :
  substr (a ++ b) 0 (Z.of_nat (length a)) = Some a.
Proof.
  unfold substr. rewrite length_app.
  destruct (Z.ltb_spec (Z.of_nat (length a + length b)) 0) as [H|_]; [lia|].
  f_equal. cbn [Z.to_nat skipn].
  replace (Z.to_nat _) with (length a) by lia.
  rewrite firstn_app, Nat.sub_diag, firstn_all. cbn. apply app_nil_r.
Qed.

Lemma substr_middle (a b c : list ascii) (count : Z) :
  count = Z.of_nat (length b) ->
  substr (a ++ b ++ c) (Z.of_nat (length a)) count = Some b.
Proof.
  intros ->. unfold substr. rewrite !length_app.
  destruct (Z.ltb_spec (Z.of_nat (length a + (length b + length c)))
              (Z.of_nat (length a))) as [H|_]; [lia|].
  f_equal. rewrite Nat2Z.id.
  replace (Z.to_nat _) with (length b) by lia.
  rewrite skipn_app, Nat.sub_diag, skipn_all. cbn [skipn app].
  rewrite firstn_app, Nat.sub_diag, firstn_all. cbn. apply app_nil_r.
Qed.

Lemma substr_suffix (a b : list ascii) (count : Z) :
  (Z.of_nat (length b) <= count)%Z ->
  substr (a ++ b) (Z.of_nat (length a)) count = Some b.
Proof.
  intros Hc. unfold substr. rewrite !length_app.
  destruct (Z.ltb_spec (Z.of_nat (length a + length b))
              (Z.of_nat (length a))) as [H|_]; [lia|].
  f_equal. rewrite Nat2Z.id.
  replace (Z.to_nat _) with (length b) by lia.
  rewrite skipn_app, Nat.sub_diag, skipn_all. cbn [skipn app].
  apply firstn_all.
Qed.

(** The [int] start position of the comma loop. *)
Lemma start_position_le (n : nat) :
  (to_int (size_sub (Z.of_nat n) 3) <= Z.of_nat n - 3)%Z.
Proof.
  destruct (le_lt_dec 3 n) as [H3|H3].
  - unfold to_int, size_sub.
    assert (H1 : ((Z.of_nat n - 3) mod 2 ^ 64 <= Z.of_nat n - 3)%Z)
      by (apply Z.mod_le; lia).
    assert (H0 : (0 <= (Z.of_nat n - 3) mod 2 ^ 64)%Z)
      by (apply Z.mod_pos_bound; lia).
    set (x := ((Z.of_nat n - 3) mod 2 ^ 64)%Z) in *.
    assert (H2 : (x mod 2 ^ 32 <= x)%Z) by (apply Z.mod_le; lia).
    cbv zeta. destruct (Z.ltb_spec (x mod 2 ^ 32) (2 ^ 31)); lia.
  - destruct n as [|[|[|n]]]; try lia; vm_compute; discriminate.
Qed.

Lemma start_position (n : nat) :
  (Z.of_nat n < 2 ^ 31)%Z ->
  to_int (size_sub (Z.of_nat n) 3) = (Z.of_nat n - 3)%Z.
Proof.
  intros Hn. destruct (le_lt_dec 3 n) as [H3|H3].
  - unfold to_int, size_sub.
    rewrite (Z.mod_small (Z.of_nat n - 3) (2 ^ 64)) by lia.
    rewrite (Z.mod_small (Z.of_nat n - 3) (2 ^ 32)) by lia.
    destruct (Z.ltb_spec (Z.of_nat n - 3) (2 ^ 31)); lia.
  - destruct n as [|[|[|n]]]; try lia; vm_compute; reflexivity.
Qed.

(** ** [format_numeric]: the comma loop *)

Lemma strip_commas_app (a b : list ascii) :
  strip_commas (a ++ b) = strip_commas a ++ strip_commas b.
Proof. apply filter_app. Qed.

Lemma char_at_inside (s : list ascii) (i : Z) :
  (0 <= i < Z.of_nat (length s))%Z -> char_at s i = nth_error s (Z.to_nat i).
Proof.
  intros H. unfold char_at.
  destruct (Z.eqb_spec i (Z.of_nat (length s))); [lia|reflexivity].
Qed.

Lemma insert_ok (s : list ascii) (pos : Z) (x : list ascii) :
  (pos <= Z.of_nat (length s))%Z ->
  insert s pos x = Some (firstn (Z.to_nat pos) s ++ x ++ skipn (Z.to_nat pos) s).
Proof.
  intros H. unfold insert.
  destruct (Z.ltb_spec (Z.of_nat (length s)) pos); [lia|reflexivity].
Qed.

Lemma insert_commas_strip (fuel : nat) :
  forall (pos : Z) (str : list ascii),
    (pos <= Z.of_nat (length str))%Z -> (pos <= Z.of_nat fuel)%Z ->
    exists r, insert_commas (S fuel) pos str = Some r /\
      strip_commas r = strip_commas str /\ length str <= length r.
Proof.
  induction fuel as [|fuel IH]; intros pos str Hl Hf.
  - cbn [insert_commas]. destruct (Z.gtb_spec pos 0) as [H|_]; [lia|].
    exists str. auto.
  - cbn [insert_commas]. fold (insert_commas (S fuel)).
    destruct (Z.gtb_spec pos 0) as [Hp|_]; [|exists str; auto].
    rewrite char_at_inside by lia.
    destruct (nth_error str (Z.to_nat (pos - 1))) as [c|] eqn:Ec.
    2:{ apply nth_error_None in Ec. lia. }
    cbn [bind]. destruct (negb (Ascii.eqb c "-")); [|exists str; auto].
    rewrite insert_ok by exact Hl. cbn [bind].
    set (str' := firstn (Z.to_nat pos) str ++ [","%char] ++ skipn (Z.to_nat pos) str).
    assert (Hlen : length str' = S (length str)).
    { unfold str'. rewrite !length_app, length_firstn, length_skipn. cbn [length]. lia. }
    destruct (IH (pos - 3)%Z str') as (r & Er & Hs & Hr); [lia|lia|].
    exists r. split; [exact Er|]. split; [|lia].
    rewrite Hs. unfold str'. rewrite !strip_commas_app. cbn [strip_commas filter Ascii.eqb].
    change (filter (fun c0 : ascii => negb (c0 =? ",")%char)) with strip_commas.
    cbn. rewrite <- strip_commas_app, firstn_skipn. reflexivity.
Qed.

Lemma thousands_strip (s : list ascii) :
  (Z.of_nat (length s) < 2 ^ 64)%Z ->
  exists r, thousands s = Some r /\ strip_commas r = strip_commas s /\
    length s <= length r.
Proof.
  intros Hs. unfold thousands.
  assert (Hsplit : exists ip fp,
    s = ip ++ fp /\
    (if (find "." s =? npos)%Z then Some s else substr s 0%Z (find "." s)) = Some ip /\
    (if (find "." s =? npos)%Z then Some [] else substr s (find "." s) npos) = Some fp).
  { destruct (first_split "." s) as [Hn|(a & b & -> & Hn)].
    - exists s, []. rewrite find_absent by exact Hn. rewrite Z.eqb_refl, app_nil_r. auto.
    - rewrite find_first by exact Hn.
      destruct (Z.eqb_spec (Z.of_nat (length a)) npos) as [E|_].
      + exfalso. rewrite length_app in Hs. unfold npos in E. cbn [length] in Hs. lia.
      + exists a, ("."%char :: b). split; [reflexivity|]. split.
        * apply substr_prefix.
        * apply substr_suffix. rewrite length_app in Hs. unfold npos. lia. }
  destruct Hsplit as (ip & fp & -> & -> & ->). cbn [bind].
  destruct (insert_commas_strip (length ip)
              (to_int (size_sub (Z.of_nat (length ip)) 3)) ip) as (r & Er & Hr & Hl).
  { pose proof (start_position_le (length ip)). lia. }
  { pose proof (start_position_le (length ip)). lia. }
  rewrite Er. cbn [bind]. exists (r ++ fp). split; [reflexivity|]. split.
  - rewrite !strip_commas_app, Hr. reflexivity.
  - rewrite !length_app. lia.
Qed.

(** ** [format_numeric]: where the commas go *)

Lemma group_rev_short (r : list ascii) : length r <= 3 -> group_rev r = r.
Proof.
  destruct r as [|a [|b [|c [|x r]]]]; cbn [length]; intros H; try reflexivity; lia.
Qed.

Lemma group3_short (d : list ascii) : length d <= 3 -> group3 d = d.
Proof.
  intros H. unfold group3. rewrite group_rev_short by (rewrite length_rev; exact H).
  apply rev_involutive.
Qed.

Lemma group3_snoc (d t : list ascii) :
  d <> [] -> length t = 3 -> group3 (d ++ t) = group3 d ++ ","%char :: t.
Proof.
  intros Hd Ht. destruct t as [|a [|b [|c [|x t]]]]; try discriminate.
  unfold group3. rewrite rev_app_distr. cbn [rev app].
  destruct (rev d) as [|y r] eqn:Er.
  - exfalso. apply Hd. rewrite <- (rev_involutive d), Er. reflexivity.
  - cbn [group_rev]. cbn [rev]. rewrite <- !app_assoc. reflexivity.
Qed.

(** A string of more than three characters ends in three. *)
Lemma last_three (d : list ascii) :
  3 < length d ->
  exists d1 t, d = d1 ++ t /\ length t = 3 /\ d1 <> [] /\ length d1 = length d - 3.
Proof.
  intros H. exists (firstn (length d - 3) d), (skipn (length d - 3) d).
  rewrite firstn_skipn, length_skipn, length_firstn.
  repeat split; try lia.
  intros E. apply (f_equal (@length ascii)) in E.
  rewrite length_firstn in E. cbn in E. lia.
Qed.

Lemma insert_commas_group (neg : bool) (fuel : nat) :
  forall (d g : list ascii),
    ~ In "-"%char d -> length d <= fuel ->
    insert_commas (S fuel)
      (Z.of_nat (length ((if neg then ["-"%char] else []) ++ d)) - 3)
      ((if neg then ["-"%char] else []) ++ d ++ g)
    = Some ((if neg then ["-"%char] else []) ++ group3 d ++ g).
Proof.
  set (sign := if neg then ["-"%char] else []).
  assert (Hsign : length sign <= 1) by (unfold sign; destruct neg; cbn; lia).
  induction fuel as [|fuel IH]; intros d g Hd Hf.
  - destruct d; [|cbn in Hf; lia]. cbn [insert_commas].
    destruct (Z.gtb_spec (Z.of_nat (length (sign ++ [])) - 3) 0) as [H|_].
    + rewrite length_app in H. cbn in H. lia.
    + reflexivity.
  - destruct (le_lt_dec (length d) 3) as [H3|H3].
    + rewrite group3_short by exact H3. cbn [insert_commas].
      destruct (Z.gtb_spec (Z.of_nat (length (sign ++ d)) - 3) 0) as [H|_];
        [|reflexivity].
      rewrite length_app in H.
      assert (Hn : neg = true) by (destruct neg; [reflexivity|cbn in H; lia]).
      subst sign. rewrite Hn in *. cbn [length] in H.
      rewrite char_at_inside by (rewrite !length_app; cbn [length]; lia).
      replace (Z.to_nat _) with 0 by (rewrite length_app; cbn [length]; lia).
      reflexivity.
    + destruct (last_three d H3) as (d1 & t & -> & Ht & Hne & Hl1).
      cbn [insert_commas]. fold (insert_commas (S fuel)).
      assert (Hpos : (Z.of_nat (length (sign ++ d1 ++ t)) - 3
                      = Z.of_nat (length (sign ++ d1)))%Z).
      { rewrite !length_app. lia. }
      rewrite Hpos.
      destruct (Z.gtb_spec (Z.of_nat (length (sign ++ d1))) 0) as [_|H].
      2:{ rewrite length_app in H. destruct d1; [congruence|cbn in H; lia]. }
      destruct (exists_last Hne) as (d0 & c & ->).
      assert (Ec : nth_error (sign ++ ((d0 ++ [c]) ++ t) ++ g)
                     (Z.to_nat (Z.of_nat (length (sign ++ d0 ++ [c])) - 1)) = Some c).
      { replace (Z.to_nat _) with (length (sign ++ d0))
          by (rewrite !length_app; cbn [length]; lia).
        rewrite <- !app_assoc. rewrite app_assoc.
        rewrite nth_error_app2 by lia. rewrite Nat.sub_diag. reflexivity. }
      rewrite char_at_inside by (rewrite !length_app; cbn [length]; lia).
      rewrite Ec. cbn [bind].
      assert (Hc : c <> "-"%char).
      { intros ->. apply Hd. apply in_or_app. left. apply in_or_app. right.
        left. reflexivity. }
      destruct (Ascii.eqb_spec c "-") as [E|_]; [contradiction|]. cbn [negb].
      rewrite insert_ok by (rewrite !length_app; lia). cbn [bind].
      rewrite Nat2Z.id.
      replace (sign ++ ((d0 ++ [c]) ++ t) ++ g)
        with ((sign ++ d0 ++ [c]) ++ t ++ g) by (rewrite <- !app_assoc; reflexivity).
      rewrite firstn_app, Nat.sub_diag, firstn_all. cbn [firstn]. rewrite app_nil_r.
      rewrite skipn_app, Nat.sub_diag, skipn_all. cbn [skipn app].
      rewrite <- app_assoc.
      rewrite <- Hpos at 1.
      replace (Z.of_nat (length (sign ++ (d0 ++ [c]) ++ t)) - 3 - 3)%Z
        with (Z.of_nat (length (sign ++ d0 ++ [c])) - 3)%Z
        by (rewrite !length_app; rewrite !length_app in Hpos; lia).
      refine (eq_trans (IH (d0 ++ [c]) (","%char :: t ++ g) _ _) _).
      * intros Hin. apply Hd. apply in_or_app. left. exact Hin.
      * rewrite !length_app in *. cbn [length] in *. lia.
      * rewrite (group3_snoc (d0 ++ [c]) t Hne Ht). rewrite <- !app_assoc. reflexivity.
Qed.

Lemma thousands_group (neg : bool) (d frac : list ascii) :
  ~ In "-"%char d -> ~ In "."%char d ->
  frac = [] \/ (exists f, frac = "."%char :: f) ->
  (Z.of_nat (length ((if neg then ["-"%char] else []) ++ d ++ frac)) < 2 ^ 31)%Z ->
  thousands ((if neg then ["-"%char] else []) ++ d ++ frac)
  = Some ((if neg then ["-"%char] else []) ++ group3 d ++ frac).
Proof.
  intros Hm Hp Hf Hl. set (sign := if neg then ["-"%char] else []) in *.
  assert (Hnd : ~ In "."%char (sign ++ d)).
  { intros H. apply in_app_or in H. destruct H as [H|H]; [|exact (Hp H)].
    unfold sign in H. destruct neg; cbn in H; [|exact H].
    destruct H as [H|[]]. discriminate. }
  unfold thousands.
  assert (Hsplit :
    (if (find "." (sign ++ d ++ frac) =? npos)%Z then Some (sign ++ d ++ frac)
     else substr (sign ++ d ++ frac) 0%Z (find "." (sign ++ d ++ frac)))
      = Some (sign ++ d) /\
    (if (find "." (sign ++ d ++ frac) =? npos)%Z then Some []
     else substr (sign ++ d ++ frac) (find "." (sign ++ d ++ frac)) npos)
      = Some frac).
  { destruct Hf as [->|(f & ->)].
    - rewrite app_nil_r. rewrite find_absent by exact Hnd. rewrite Z.eqb_refl. auto.
    - rewrite app_assoc. rewrite find_first by exact Hnd.
      rewrite app_assoc, length_app in Hl.
      destruct (Z.eqb_spec (Z.of_nat (length (sign ++ d))) npos) as [E|_].
      + exfalso. unfold npos in E. lia.
      + split; [apply substr_prefix|]. apply substr_suffix. unfold npos. lia. }
  destruct Hsplit as [-> ->]. cbn [bind].
  rewrite start_position by (rewrite app_assoc, length_app in Hl; lia).
  pose proof (insert_commas_group neg (length (sign ++ d)) d [] Hm) as H.
  fold sign in H. rewrite !app_nil_r in H. rewrite H.
  - cbn [bind]. rewrite <- app_assoc. reflexivity.
  - rewrite length_app. lia.
Qed.

(** ** [format_numeric]: the precision read from the format *)

Ltac len_simpl :=
  repeat first [rewrite !length_app in * | progress cbn [length] in * ].

Section FormatFacts.

Context {D : Type} {ops : DoubleOps D}.

Variable fixed : Z -> D -> list ascii.

Lemma format_numeric_nan (value : D) (spec : list ascii) :
  isnan value = true -> format_numeric fixed value spec = Some [].
Proof. intros H. unfold format_numeric. rewrite H. reflexivity. Qed.

Lemma format_numeric_no_f (value : D) (spec : list ascii) :
  isnan value = false -> ~ In "f"%char spec ->
  format_numeric fixed value spec = thousands (fixed 0%Z value).
Proof.
  intros H Hf. unfold format_numeric. rewrite H.
  rewrite (find_absent "f" spec Hf). rewrite Z.eqb_refl. reflexivity.
Qed.

(** The digits between the point and the [f]. *)
Lemma format_numeric_point (value : D) (pre ds rest : list ascii) :
  isnan value = false ->
  ~ In "."%char pre -> ~ In "f"%char pre -> ~ In "f"%char ds ->
  (Z.of_nat (length (pre ++ "."%char :: ds ++ "f"%char :: rest)) < 2 ^ 64)%Z ->
  format_numeric fixed value (pre ++ "."%char :: ds ++ "f"%char :: rest)
  = (p <- stoi ds ;; thousands (fixed p value)).
Proof.
  intros H Hp Hf Hd Hl. unfold format_numeric. rewrite H.
  rewrite (find_first "." pre _ Hp).
  assert (Ef : find "f" (pre ++ "."%char :: ds ++ "f"%char :: rest)
               = Z.of_nat (length (pre ++ "."%char :: ds))).
  { replace (pre ++ "."%char :: ds ++ "f"%char :: rest)
      with ((pre ++ "."%char :: ds) ++ "f"%char :: rest)
      by (rewrite <- app_assoc; reflexivity).
    apply find_first. intros Hin. apply in_app_or in Hin.
    destruct Hin as [Hin|[Hin|Hin]]; [exact (Hf Hin)|discriminate|exact (Hd Hin)]. }
  rewrite Ef. len_simpl.
  destruct (Z.eqb_spec (Z.of_nat (length pre + S (length ds))) npos) as [E|_].
  { exfalso. unfold npos in E. lia. }
  cbn [negb].
  assert (Epos : size_add (Z.of_nat (length pre)) 1 = Z.of_nat (length (pre ++ ["."%char]))).
  { unfold size_add. len_simpl. rewrite Z.mod_small; lia. }
  assert (Ecount : size_sub (size_sub (Z.of_nat (length pre + S (length ds)))
                               (Z.of_nat (length pre))) 1 = Z.of_nat (length ds)).
  { unfold size_sub. rewrite (Z.mod_small (Z.of_nat _ - Z.of_nat _)) by lia.
    rewrite Z.mod_small; lia. }
  rewrite Epos, Ecount.
  replace (pre ++ "."%char :: ds ++ "f"%char :: rest)
    with ((pre ++ ["."%char]) ++ ds ++ "f"%char :: rest)
    by (rewrite <- app_assoc; reflexivity).
  rewrite substr_middle by reflexivity. reflexivity.
Qed.

(** Without a point the position wraps around to the start of the format. *)
Lemma format_numeric_no_point (value : D) (ds rest : list ascii) :
  isnan value = false ->
  ~ In "."%char (ds ++ "f"%char :: rest) -> ~ In "f"%char ds ->
  (Z.of_nat (length (ds ++ "f"%char :: rest)) < 2 ^ 64)%Z ->
  format_numeric fixed value (ds ++ "f"%char :: rest)
  = (p <- stoi ds ;; thousands (fixed p value)).
Proof.
  intros H Hp Hd Hl. unfold format_numeric. rewrite H.
  rewrite (find_absent "." _ Hp). rewrite (find_first "f" ds rest Hd).
  len_simpl.
  destruct (Z.eqb_spec (Z.of_nat (length ds)) npos) as [E|_].
  { exfalso. unfold npos in E. lia. }
  cbn [negb].
  assert (Epos : size_add npos 1 = Z.of_nat (@length ascii [])) by reflexivity.
  assert (Ecount : size_sub (size_sub (Z.of_nat (length ds)) npos) 1
                   = Z.of_nat (length ds)).
  { unfold size_sub, npos.
    replace ((Z.of_nat (length ds) - (2 ^ 64 - 1)) mod 2 ^ 64)%Z
      with (Z.of_nat (length ds) + 1)%Z.
    - rewrite Z.mod_small; lia.
    - replace (Z.of_nat (length ds) - (2 ^ 64 - 1))%Z
        with (Z.of_nat (length ds) + 1 + (-1) * 2 ^ 64)%Z by lia.
      rewrite Z.mod_add by lia. rewrite Z.mod_small; lia. }
  rewrite Epos, Ecount.
  change (ds ++ "f"%char :: rest) with ([] ++ ds ++ "f"%char :: rest).
  rewrite substr_middle by reflexivity. reflexivity.
Qed.

(** With the [f] before the point, the text after the point is read. *)
Lemma format_numeric_f_first (value : D) (a b c : list ascii) :
  isnan value = false ->
  ~ In "f"%char a -> ~ In "."%char a -> ~ In "."%char b ->
  (Z.of_nat (length (a ++ "f"%char :: b ++ "."%char :: c)) < 2 ^ 64)%Z ->
  format_numeric fixed value (a ++ "f"%char :: b ++ "."%char :: c)
  = (p <- stoi c ;; thousands (fixed p value)).
Proof.
  intros H Hf Hp Hb Hl. unfold format_numeric. rewrite H.
  rewrite (find_first "f" a _ Hf).
  assert (Ep : find "." (a ++ "f"%char :: b ++ "."%char :: c)
               = Z.of_nat (length (a ++ "f"%char :: b))).
  { replace (a ++ "f"%char :: b ++ "."%char :: c)
      with ((a ++ "f"%char :: b) ++ "."%char :: c)
      by (rewrite <- app_assoc; reflexivity).
    apply find_first. intros Hin. apply in_app_or in Hin.
    destruct Hin as [Hin|[Hin|Hin]]; [exact (Hp Hin)|discriminate|exact (Hb Hin)]. }
  rewrite Ep. len_simpl.
  destruct (Z.eqb_spec (Z.of_nat (length a)) npos) as [E|_].
  { exfalso. unfold npos in E. lia. }
  cbn [negb].
  assert (Epos : size_add (Z.of_nat (length a + S (length b))) 1
                 = Z.of_nat (length ((a ++ "f"%char :: b) ++ ["."%char]))).
  { unfold size_add. len_simpl. rewrite Z.mod_small; lia. }
  assert (Ecount : (Z.of_nat (length c)
                    <= size_sub (size_sub (Z.of_nat (length a))
                                   (Z.of_nat (length a + S (length b)))) 1)%Z).
  { unfold size_sub.
    replace ((Z.of_nat (length a) - Z.of_nat (length a + S (length b))) mod 2 ^ 64)%Z
      with (2 ^ 64 - 1 - Z.of_nat (length b))%Z.
    - rewrite Z.mod_small; lia.
    - replace (Z.of_nat (length a) - Z.of_nat (length a + S (length b)))%Z
        with (2 ^ 64 - 1 - Z.of_nat (length b) + (-1) * 2 ^ 64)%Z by lia.
      rewrite Z.mod_add by lia. rewrite Z.mod_small; lia. }
  rewrite Epos.
  replace (a ++ "f"%char :: b ++ "."%char :: c)
    with (((a ++ "f"%char :: b) ++ ["."%char]) ++ c)
    by (rewrite <- !app_assoc; reflexivity).
  rewrite substr_suffix by exact Ecount. reflexivity.
Qed.

(** The format of every call in [display_public]. *)
Lemma format_numeric_0f (value : D) :
  isnan value = false ->
  format_numeric fixed value ["0"%char; "f"%char] = thousands (fixed 0%Z value).
Proof.
  intros H.
  change ["0"%char; "f"%char] with (["0"%char] ++ ["f"%char]).
  rewrite (format_numeric_no_point value ["0"%char] [] H).
  - reflexivity.
  - cbn. intros [E|[E|[]]]; discriminate.
  - cbn. intros [E|[]]; discriminate.
  - cbn. lia.
Qed.

End FormatFacts.

Lemma group_rev_length (n : nat) :
  forall r : list ascii,
    length r <= n -> length (group_rev r) = length r + (length r - 1) / 3.
Proof.
  induction n as [|n IH]; intros r Hr.
  - destruct r; [reflexivity|cbn in Hr; lia].
  - destruct r as [|a [|b [|c [|x r]]]]; try reflexivity.
    change (group_rev (a :: b :: c :: x :: r))
      with (a :: b :: c :: ","%char :: group_rev (x :: r)).
    cbn [length] in *.
    rewrite (IH (x :: r)) by (cbn [length]; lia). cbn [length].
    replace (S (S (S (S (length r)))) - 1) with (S (length r) - 1 + 1 * 3) by lia.
    rewrite Nat.div_add by lia. lia.
Qed.

Lemma group3_length (d : list ascii) :
  length (group3 d) = length d + (length d - 1) / 3.
Proof.
  unfold group3. rewrite length_rev.
  rewrite (group_rev_length (length (rev d))) by lia.
  rewrite length_rev. reflexivity.
Qed.

Lemma group_rev_strip (n : nat) :
  forall r : list ascii,
    length r <= n -> strip_commas (group_rev r) = strip_commas r.
Proof.
  induction n as [|n IH]; intros r Hr.
  - destruct r; [reflexivity|cbn in Hr; lia].
  - destruct r as [|a [|b [|c [|x r]]]]; try reflexivity.
    change (group_rev (a :: b :: c :: x :: r))
      with ([a; b; c] ++ [","%char] ++ group_rev (x :: r)).
    cbn [length] in *.
    change (a :: b :: c :: x :: r) with ([a; b; c] ++ x :: r).
    rewrite !strip_commas_app. rewrite (IH (x :: r)) by (cbn [length]; lia).
    reflexivity.
Qed.

Section FormatTheorems.

Context {D : Type} {ops : DoubleOps D}.

Variable fixed : Z -> D -> list ascii.

Lemma format_numeric_returns (value : D) :
  (Z.of_nat (length (fixed 0%Z value)) < 2 ^ 64)%Z ->
  exists r, format_numeric fixed value ["0"%char; "f"%char] = Some r.
Proof.
  intros Hl. destruct (isnan value) eqn:En.
  - exists []. apply format_numeric_nan. exact En.
  - rewrite format_numeric_0f by exact En.
    destruct (thousands_strip _ Hl) as (r & Er & _). exists r. exact Er.
Qed.

(** X9. [format_numeric] with the format [0f], the one every call of
    [display_public] passes, returns for every value whose printed text is a
    string ([std::string] holds fewer than 2^64 characters): the empty text
    for a NaN, and otherwise the printed text with commas added and nothing
    else changed or removed - without the commas the result is the printed
    text without its commas. *)
Theorem format_numeric_only_adds_commas (value : D) :
  (Z.of_nat (length (fixed 0%Z value)) < 2 ^ 64)%Z ->
  exists r, format_numeric fixed value ["0"%char; "f"%char] = Some r /\
    (isnan value = true -> r = []) /\
    (isnan value = false ->
       strip_commas r = strip_commas (fixed 0%Z value) /\
       length (fixed 0%Z value) <= length r).
Proof.
  intros Hl. destruct (isnan value) eqn:En.
  - exists []. rewrite format_numeric_nan by exact En.
    split; [reflexivity|]. split; [reflexivity|discriminate].
  - rewrite format_numeric_0f by exact En.
    destruct (thousands_strip _ Hl) as (r & Er & Hs & Hr).
    exists r. split; [exact Er|]. split; [discriminate|]. auto.
Qed.

(** X10. Where the commas go: when the printed text is an optional minus
    sign, then a run [d] of characters without minus sign and point, then
    nothing or a fractional part that starts with the point,
    [format_numeric] returns the sign, [d] in groups of three counted from
    its right end with a comma between the groups, and the fractional part
    as it was.  No comma follows the sign, and [(length d - 1) / 3] commas
    are added. *)
Theorem format_numeric_grouping (value : D) (neg : bool) (d frac : list ascii) :
  isnan value = false ->
  fixed 0%Z value = (if neg then ["-"%char] else []) ++ d ++ frac ->
  ~ In "-"%char d -> ~ In "."%char d ->
  frac = [] \/ (exists f, frac = "."%char :: f) ->
  (Z.of_nat (length (fixed 0%Z value)) < 2 ^ 31)%Z ->
  format_numeric fixed value ["0"%char; "f"%char]
  = Some ((if neg then ["-"%char] else []) ++ group3 d ++ frac) /\
  length (group3 d) = length d + (length d - 1) / 3 /\
  strip_commas (group3 d) = strip_commas d.
Proof.
  intros En Ef Hm Hp Hfrac Hl. split; [|split].
  - rewrite format_numeric_0f by exact En. rewrite Ef in *.
    apply thousands_group; assumption.
  - apply group3_length.
  - unfold group3, strip_commas. rewrite filter_rev.
    fold (strip_commas (group_rev (rev d))).
    rewrite (group_rev_strip (length (rev d))) by lia.
    unfold strip_commas. rewrite filter_rev, rev_involutive. reflexivity.
Qed.

(** X11. The precision [format_numeric] prints with, for a value that is not
    a NaN: 0 for a format without [f]; for a format with a point before its
    first [f], [std::stoi] of the text between the two; for a format with an
    [f] and no point, [std::stoi] of the text before the [f], because the
    position [npos + 1] wraps around to 0; and for a format whose first
    point comes after its first [f], [std::stoi] of everything after that
    point.  Where [std::stoi] throws, so does [format_numeric].  A NaN gives
    the empty text whatever the format. *)
Theorem format_numeric_precision (value : D) :
  (isnan value = true -> forall spec, format_numeric fixed value spec = Some []) /\
  (isnan value = false ->
     (forall spec, ~ In "f"%char spec ->
        format_numeric fixed value spec = thousands (fixed 0%Z value)) /\
     (forall pre ds rest,
        ~ In "."%char pre -> ~ In "f"%char pre -> ~ In "f"%char ds ->
        (Z.of_nat (length (pre ++ "."%char :: ds ++ "f"%char :: rest)) < 2 ^ 64)%Z ->
        format_numeric fixed value (pre ++ "."%char :: ds ++ "f"%char :: rest)
        = (p <- stoi ds ;; thousands (fixed p value))) /\
     (forall ds rest,
        ~ In "."%char (ds ++ "f"%char :: rest) -> ~ In "f"%char ds ->
        (Z.of_nat (length (ds ++ "f"%char :: rest)) < 2 ^ 64)%Z ->
        format_numeric fixed value (ds ++ "f"%char :: rest)
        = (p <- stoi ds ;; thousands (fixed p value))) /\
     (forall a b c,
        ~ In "f"%char a -> ~ In "."%char a -> ~ In "."%char b ->
        (Z.of_nat (length (a ++ "f"%char :: b ++ "."%char :: c)) < 2 ^ 64)%Z ->
        format_numeric fixed value (a ++ "f"%char :: b ++ "."%char :: c)
        = (p <- stoi c ;; thousands (fixed p value)))).
Proof.
  split.
  - intros En spec. apply format_numeric_nan. exact En.
  - intros En. repeat split.
    + intros spec. apply format_numeric_no_f. exact En.
    + intros pre ds rest. apply format_numeric_point. exact En.
    + intros ds rest. apply format_numeric_no_point. exact En.
    + intros a b c. apply format_numeric_f_first. exact En.
Qed.

(** ** The rows of the table *)

Lemma list_ascii_length (s : string) :
  length (list_ascii_of_string s) = String.length s.
Proof. induction s as [|c s IH]; [reflexivity|]. cbn. rewrite IH. reflexivity. Qed.

Lemma setw_left_length (w : Z) (text : list ascii) :
  length (setw_left w text) = Nat.max (Z.to_nat w) (length text).
Proof. unfold setw_left, fill. rewrite length_app, repeat_length. lia. Qed.

Lemma setw_right_length (w : Z) (text : list ascii) :
  length (setw_right w text) = Nat.max (Z.to_nat w) (length text).
Proof. unfold setw_right, fill. rewrite length_app, repeat_length. lia. Qed.

Lemma numeric_column_returns (name : string) (w : Z) (value : D) :
  (Z.of_nat (length (fixed 0%Z value)) < 2 ^ 64)%Z ->
  (width <- column name "width" ;; stoi width) = Some w ->
  exists cell, numeric_column fixed name value = Some cell /\
    Z.to_nat w + 2 <= length cell.
Proof.
  intros Hl Hw. unfold numeric_column.
  destruct (column name "width") as [width|]; [|discriminate]. cbn [bind] in *.
  rewrite Hw. cbn [bind].
  destruct (format_numeric_returns value Hl) as (r & Er).
  change (list_ascii_of_string "0f") with ["0"%char; "f"%char].
  rewrite Er. cbn [bind]. eexists. split; [reflexivity|].
  rewrite length_app, setw_right_length. cbn [length list_ascii_of_string]. lia.
Qed.

Lemma percent_column_returns (name : string) (w p : Z) (value : D) :
  (width <- column name "width" ;; stoi width) = Some w ->
  column name "prefix" <> None ->
  exists cell, percent_column fixed name p value = Some cell /\
    Z.to_nat w + 2 <= length cell.
Proof.
  intros Hw Hp. unfold percent_column.
  destruct (column name "width") as [width|]; [|discriminate]. cbn [bind] in *.
  rewrite Hw. cbn [bind].
  destruct (column name "prefix") as [prefix|]; [|congruence]. cbn [bind].
  eexists. split; [reflexivity|].
  rewrite length_app, setw_right_length. cbn [length list_ascii_of_string]. lia.
Qed.

(** X12. A table row never throws - every [.at] finds its key and every
    width is a number - and it is at least as long as the rule above the
    table, 105 characters.  The date column takes the prefix and the date
    on a width of 10, so a date of ten characters or more makes the row
    longer than the rule. *)
Theorem table_row_width (row : PiCycleData D) :
  (forall v, Z.of_nat (length (fixed 0%Z v)) < 2 ^ 64)%Z ->
  exists line, ss_row fixed row = Some line /\
    length table_rule = 105 /\
    105 <= length line /\
    (10 <= String.length (date row) -> 105 < length line).
Proof.
  intros Hfix. unfold ss_row.
  change (column "Date" "width") with (Some (list_ascii_of_string "10")).
  cbn [bind].
  change (stoi (list_ascii_of_string "10")) with (Some 10%Z). cbn [bind].
  change (column "Date" "prefix") with (Some (list_ascii_of_string " ")).
  cbn [bind].
  destruct (numeric_column_returns "Price" 10 (price row) (Hfix _) eq_refl)
    as (c1 & -> & H1).
  destruct (percent_column_returns "Move" 7 2 (move row) eq_refl)
    as (c2 & -> & H2); [discriminate|].
  destruct (percent_column_returns "Offset" 7 1 (offset row) eq_refl)
    as (c3 & -> & H3); [discriminate|].
  destruct (numeric_column_returns "CEILING" 10 (ceiling row) (Hfix _) eq_refl)
    as (c4 & -> & H4).
  destruct (numeric_column_returns " MEDIAN" 10 (median row) (Hfix _) eq_refl)
    as (c5 & -> & H5).
  destruct (numeric_column_returns " FLOOR " 10 (floor row) (Hfix _) eq_refl)
    as (c6 & -> & H6).
  destruct (numeric_column_returns "Step" 5 (step row) (Hfix _) eq_refl)
    as (c7 & -> & H7).
  destruct (numeric_column_returns "Change" 7 (change row) (Hfix _) eq_refl)
    as (c8 & -> & H8).
  destruct (percent_column_returns "52-weeks" 8 2 (weeks_52 row) eq_refl)
    as (c9 & -> & H9); [discriminate|].
  cbn [bind]. eexists. split; [reflexivity|]. split; [reflexivity|].
  cbn [length]. rewrite !length_app, setw_left_length, length_app, list_ascii_length.
  cbn [length list_ascii_of_string].
  change (Z.to_nat 10) with 10 in *. change (Z.to_nat 7) with 7 in *.
  change (Z.to_nat 5) with 5 in *. change (Z.to_nat 8) with 8 in *.
  rewrite ?list_ascii_length. cbn [String.length].
  split; [lia|]. intros Hd. lia.
Qed.

End FormatTheorems.

(** *** Witnesses *)

Lemma format_numeric_only_adds_commas_witness :
  exists r,
    format_numeric (D:=float) (fun _ _ => list_ascii_of_string "1234567") 1%float
      ["0"%char; "f"%char] = Some r /\
    (isnan 1%float = true -> r = []) /\
    (isnan 1%float = false ->
       strip_commas r = strip_commas (list_ascii_of_string "1234567") /\
       7 <= length r).
Proof.
  apply (format_numeric_only_adds_commas (D:=float)
           (fun _ _ => list_ascii_of_string "1234567") 1%float).
  vm_compute. reflexivity.
Defined.

Lemma format_numeric_grouping_witness :
  format_numeric (D:=float) (fun _ _ => list_ascii_of_string "-1234567.89") 1%float
    ["0"%char; "f"%char] = Some (list_ascii_of_string "-1,234,567.89") /\
  length (group3 (list_ascii_of_string "1234567")) = 9 /\
  strip_commas (group3 (list_ascii_of_string "1234567"))
  = list_ascii_of_string "1234567".
Proof.
  apply (format_numeric_grouping (D:=float)
           (fun _ _ => list_ascii_of_string "-1234567.89") 1%float true
           (list_ascii_of_string "1234567") (list_ascii_of_string ".89")).
  - vm_compute. reflexivity.
  - reflexivity.
  - cbn. intuition discriminate.
  - cbn. intuition discriminate.
  - right. eexists. reflexivity.
  - vm_compute. reflexivity.
Defined.

Lemma table_row_width_witness :
  exists line,
    ss_row (D:=float) (fun _ _ => ["0"%char])
      (set_date "2024-01-01" default_row) = Some line /\
    length table_rule = 105 /\
    105 <= length line /\
    (10 <= String.length "2024-01-01" -> 105 < length line).
Proof.
  apply (table_row_width (D:=float) (fun _ _ => ["0"%char])
           (set_date "2024-01-01" default_row)).
  intros v. vm_compute. reflexivity.
Defined.

Lemma engine_row_of_window_witness :
  exists out out' r,
    engine scenario_A (d_of_Q 1) 33 = Some out /\
    engine (firstn 365 (skipn (365 - 364) scenario_A)) (d_of_Q 2) 40 = Some out' /\
    length out' = 365 /\
    nth_error out 365 = Some r /\ nth_error out' 364 = Some r.
Proof.
  apply (engine_row_of_window (D:=float) scenario_A (d_of_Q 1) (d_of_Q 2) 33 40 365).
  - lia.
  - vm_compute. apply le_n.
Defined.

(** ** Rows without a full window *)

Section RealSentinelFacts.

Local Open Scope R_scope.

Lemma real_band_early (klines : list (Kline R)) (i : nat) (k : Kline R) :
  let r := stats_row klines i k in
  (i < 364)%nat ->
  std_365 r = 0 /\ floor r = 0 /\ ceiling r = 0 /\ median r = 0 /\ ma_365 r = 0.
Proof.
  cbv zeta; intros Hi. unfold stats_row.
  assert (E : (364 <=? i)%nat = false) by (apply Nat.leb_gt; assumption).
  rewrite E. row_simpl. cbn; unfold Q2R; cbn. repeat split; lra.
Qed.

(** The colour of a row whose band is at the sentinel. *)
Lemma real_color_sentinel (row : PiCycleData R) :
  median row = 0 -> ceiling row = 0 -> floor row = 0 ->
  (0 < price row -> row_color row = COLOR_DARK_GREEN) /\
  (price row = 0 -> row_color row = COLOR_YELLOW) /\
  (price row < 0 -> row_color row = COLOR_DARK_RED).
Proof.
  intros Hm Hc Hf. unfold row_color. rewrite Hm, Hc, Hf. cbn. unfold Q2R. cbn.
  repeat split; intros Hp;
    repeat match goal with
    | |- context [Rlt_dec ?a ?b] => destruct (Rlt_dec a b)
    | |- context [Rle_dec ?a ?b] => destruct (Rle_dec a b)
    | H : Rabs _ <= _ |- _ => revert H; unfold Rabs; destruct (Rcase_abs _); intros
    | H : ~ Rabs _ <= _ |- _ => revert H; unfold Rabs; destruct (Rcase_abs _); intros
    end; try reflexivity; exfalso; lra.
Qed.

(** X13. In exact arithmetic a row without a full window ([i < 364]) has
    median and offset 0, and its colour depends on the sign of its price
    alone: dark green for a positive price, yellow for a zero price, dark red
    for a negative one. *)
Theorem rows_without_history_colour (klines : list (Kline R)) (ym : R) (ndd : nat) :
  exists out,
    engine klines ym ndd = Some out /\
    forall i r, (i < 364)%nat -> nth_error out i = Some r ->
      median r = 0 /\ offset r = 0 /\
      (0 < price r -> row_color r = COLOR_DARK_GREEN) /\
      (price r = 0 -> row_color r = COLOR_YELLOW) /\
      (price r < 0 -> row_color r = COLOR_DARK_RED).
Proof.
  destruct (price_projection_rows klines ym) as [rows [E0 [L0 H0]]].
  destruct (derived_fields rows ndd) as [out [E [L [_ H]]]].
  destruct (engine_bands klines ym ndd) as [rows' [out' [E0' [E' [_ [_ Hb]]]]]].
  assert (Eo : engine klines ym ndd = Some out) by (unfold engine; rewrite E0; exact E).
  rewrite Eo in E'. inversion E'; subst out'; clear E'.
  exists out. split; [exact Eo|].
  intros i r Hi Hr.
  destruct (Hb i r (or_intror Hr)) as [k [Ek [_ [_ [_ [Hc [Hf Hm]]]]]]].
  destruct (real_band_early klines i k Hi) as [_ [Hf0 [Hc0 [Hm0 _]]]].
  rewrite Hf0 in Hf. rewrite Hc0 in Hc. rewrite Hm0 in Hm.
  destruct (H i _ (H0 i k Ek)) as [r' [Hr' [_ [_ [_ [Hoff _]]]]]].
  rewrite Hr in Hr'; inversion Hr'; subst r'; clear Hr'.
  split; [exact Hm|]. split.
  - rewrite Hoff. unfold pct_or. rewrite Hm0.
    assert (Eg : d_eqb (D:=R) 0 (d_of_Z 0) = true).
    { apply real_eqb. rewrite real_zero. reflexivity. }
    rewrite Eg. cbn [negb]. unfold stats_row.
    assert (E364 : (364 <=? i)%nat = false) by (apply Nat.leb_gt; assumption).
    rewrite E364. cbn. unfold Q2R. cbn. lra.
  - apply real_color_sentinel; assumption.
Qed.

End RealSentinelFacts.

(** ** A NaN among the prices, on binary64 *)

Lemma SFeqb_refl (x : spec_float) : x <> S754_nan -> SFeqb x x = true.
Proof.
  intros Hx. unfold SFeqb, SFcompare.
  destruct x as [[|]|[|]| |[|] m e]; try reflexivity; try congruence;
    rewrite Z.compare_refl; try rewrite Pos.compare_cont_refl;
    try rewrite Pos.compare_refl; reflexivity.
Qed.

Lemma isnan_spec (x : float) : isnan x = true <-> Prim2SF x = S754_nan.
Proof.
  unfold isnan. cbn [d_eqb float_ops binary64]. rewrite FloatAxioms.eqb_spec. split.
  - intros H. destruct (Prim2SF x) eqn:E; try reflexivity;
      rewrite SFeqb_refl in H by discriminate; discriminate.
  - intros ->. reflexivity.
Qed.

Lemma nan_add_l (x y : float) : isnan x = true -> isnan (d_add x y) = true.
Proof.
  rewrite !isnan_spec. cbn [d_add float_ops binary64]. rewrite add_spec. intros ->.
  reflexivity.
Qed.

Lemma nan_add_r (x y : float) : isnan y = true -> isnan (d_add x y) = true.
Proof.
  rewrite !isnan_spec. cbn [d_add float_ops binary64]. rewrite add_spec. intros ->.
  destruct (Prim2SF x); reflexivity.
Qed.

Lemma nan_sub_l (x y : float) : isnan x = true -> isnan (d_sub x y) = true.
Proof.
  rewrite !isnan_spec. cbn [d_sub float_ops binary64]. rewrite sub_spec. intros ->.
  reflexivity.
Qed.

Lemma nan_sub_r (x y : float) : isnan y = true -> isnan (d_sub x y) = true.
Proof.
  rewrite !isnan_spec. cbn [d_sub float_ops binary64]. rewrite sub_spec. intros ->.
  destruct (Prim2SF x); reflexivity.
Qed.

Lemma nan_mul_l (x y : float) : isnan x = true -> isnan (d_mul x y) = true.
Proof.
  rewrite !isnan_spec. cbn [d_mul float_ops binary64]. rewrite mul_spec. intros ->.
  reflexivity.
Qed.

Lemma nan_mul_r (x y : float) : isnan y = true -> isnan (d_mul x y) = true.
Proof.
  rewrite !isnan_spec. cbn [d_mul float_ops binary64]. rewrite mul_spec. intros ->.
  destruct (Prim2SF x); reflexivity.
Qed.

Lemma nan_div_l (x y : float) : isnan x = true -> isnan (d_div x y) = true.
Proof.
  rewrite !isnan_spec. cbn [d_div float_ops binary64]. rewrite div_spec. intros ->.
  reflexivity.
Qed.

Lemma nan_div_r (x y : float) : isnan y = true -> isnan (d_div x y) = true.
Proof.
  rewrite !isnan_spec. cbn [d_div float_ops binary64]. rewrite div_spec. intros ->.
  destruct (Prim2SF x); reflexivity.
Qed.

Lemma nan_sqrt (x : float) : isnan x = true -> isnan (d_sqrt x) = true.
Proof.
  rewrite !isnan_spec. cbn [d_sqrt float_ops binary64]. rewrite sqrt_spec. intros ->.
  reflexivity.
Qed.

Lemma nan_abs (x : float) : isnan x = true -> isnan (d_abs x) = true.
Proof.
  rewrite !isnan_spec. cbn [d_abs float_ops binary64]. rewrite abs_spec. intros ->.
  reflexivity.
Qed.

(** Every comparison with a NaN is false. *)
Lemma nan_leb_l (x y : float) : isnan x = true -> d_leb x y = false.
Proof.
  rewrite isnan_spec. cbn [d_leb float_ops binary64]. rewrite leb_spec. intros ->.
  reflexivity.
Qed.

Lemma nan_leb_r (x y : float) : isnan y = true -> d_leb x y = false.
Proof.
  rewrite isnan_spec. cbn [d_leb float_ops binary64]. rewrite leb_spec. intros ->.
  destruct (Prim2SF x) as [[|]|[|]| |[|] m e]; reflexivity.
Qed.

Lemma nan_ltb_r (x y : float) : isnan y = true -> d_ltb x y = false.
Proof.
  rewrite isnan_spec. cbn [d_ltb float_ops binary64]. rewrite ltb_spec. intros ->.
  destruct (Prim2SF x) as [[|]|[|]| |[|] m e]; reflexivity.
Qed.

Lemma nan_eqb_l (x y : float) : isnan x = true -> d_eqb x y = false.
Proof.
  rewrite isnan_spec. cbn [d_eqb float_ops binary64]. rewrite FloatAxioms.eqb_spec.
  intros ->. reflexivity.
Qed.

Lemma nan_sum_from (l : list float) (a : float) :
  isnan a = true \/ (exists x, In x l /\ isnan x = true) ->
  isnan (fold_left d_add l a) = true.
Proof.
  revert a. induction l as [|y l IH]; intros a H; cbn [fold_left].
  - destruct H as [H|[x [[] _]]]. exact H.
  - apply IH. destruct H as [H|[x [[<-|Hx] Hn]]].
    + left. apply nan_add_l. exact H.
    + left. apply nan_add_r. exact Hn.
    + right. exists x. auto.
Qed.

Lemma nan_sum_sq_dev (m : float) (l : list float) (a : float) :
  isnan m = true -> isnan a = true \/ l <> [] ->
  isnan (fold_left (fun acc p => d_add acc (d_pow2 (d_sub p m))) l a) = true.
Proof.
  intros Hm. revert a. induction l as [|y l IH]; intros a H; cbn [fold_left].
  - destruct H as [H|H]; [exact H|congruence].
  - apply IH. left. apply nan_add_r.
    apply (nan_mul_l (d_sub y m) (d_sub y m)).
    apply nan_sub_r. exact Hm.
Qed.

(** The band of a window that holds a NaN. *)
Lemma nan_band (klines : list (Kline float)) (i : nat) (k : Kline float) :
  364 <= i -> (exists x, In x (window klines i) /\ isnan x = true) ->
  let r := stats_row klines i k in
  isnan (ma_365 r) = true /\ isnan (std_365 r) = true /\
  isnan (ceiling r) = true /\ isnan (floor r) = true /\ isnan (median r) = true.
Proof.
  intros Hi Hx. cbv zeta. unfold stats_row.
  assert (E : (364 <=? i) = true) by (apply Nat.leb_le; assumption).
  rewrite E. row_simpl.
  assert (Hma : isnan (mean365 (window klines i)) = true).
  { unfold mean365, sum. apply nan_div_l. apply nan_sum_from. right. exact Hx. }
  assert (Hsd : isnan (stddev365 (window klines i)) = true).
  { unfold stddev365, sum_sq_dev. apply nan_sqrt. apply nan_div_l.
    apply nan_sum_sq_dev; [exact Hma|]. right.
    destruct Hx as [x [Hin _]]. intros E0. rewrite E0 in Hin. exact Hin. }
  repeat split; try assumption.
  - apply nan_add_l. exact Hma.
  - apply nan_div_l. apply nan_add_r. exact Hma.
Qed.

(** A row whose median is a NaN is shown dark red. *)
Lemma nan_color (row : PiCycleData float) :
  isnan (median row) = true -> row_color row = COLOR_DARK_RED.
Proof.
  intros Hm. unfold row_color. cbv zeta.
  rewrite (nan_leb_r _ _ (nan_mul_l _ _ Hm)).
  rewrite (nan_leb_l _ _ Hm).
  rewrite (nan_ltb_r _ _ (nan_sub_l _ _ Hm)).
  rewrite zero_below_0_575, zero_below_0_29. reflexivity.
Qed.

Lemma window_In (klines : list (Kline float)) (i j : nat) (k : Kline float) :
  364 <= i -> i - 364 <= j <= i -> nth_error klines j = Some k ->
  In (k_price k) (window klines i).
Proof.
  intros Hi Hj Hk. apply (nth_error_In _ (j - (i - 364))).
  rewrite window_nth by lia.
  replace (i - 364 + (j - (i - 364))) with j by lia.
  rewrite Hk. reflexivity.
Qed.

(** X15. On binary64, one NaN among the prices spoils every row whose
    window holds it: for a NaN at index [j], each returned row [i >= 364]
    with [j <= i <= j + 364] has a NaN for its mean, standard deviation,
    ceiling, floor, median and offset, and is shown dark red whatever its
    price is. *)
Theorem nan_price_spoils_the_window (klines : list (Kline float)) (ym : float)
  (ndd j : nat) (k : Kline float) :
  nth_error klines j = Some k -> isnan (k_price k) = true ->
  exists out,
    engine klines ym ndd = Some out /\
    forall i r, 364 <= i -> j <= i <= j + 364 -> nth_error out i = Some r ->
      isnan (ma_365 r) = true /\ isnan (std_365 r) = true /\
      isnan (ceiling r) = true /\ isnan (floor r) = true /\
      isnan (median r) = true /\ isnan (offset r) = true /\
      row_color r = COLOR_DARK_RED.
Proof.
  intros Hk Hn.
  destruct (price_projection_rows klines ym) as [rows [E0 [L0 H0]]].
  destruct (derived_fields rows ndd) as [out [E [L [_ H]]]].
  destruct (engine_bands klines ym ndd) as [rows' [out' [_ [E' [_ [_ Hb]]]]]].
  assert (Eo : engine klines ym ndd = Some out) by (unfold engine; rewrite E0; exact E).
  rewrite Eo in E'. inversion E'; subst out'; clear E'.
  exists out. split; [exact Eo|].
  intros i r Hi Hj Hr.
  destruct (Hb i r (or_intror Hr)) as [ki [Eki [_ [Hma [Hsd [Hc [Hf Hm]]]]]]].
  destruct (nan_band klines i ki Hi) as [Nma [Nsd [Nc [Nf Nm]]]].
  { exists (k_price k). split; [|exact Hn].
    apply (window_In klines i j k Hi); [lia|exact Hk]. }
  rewrite <- Hma in Nma. rewrite <- Hsd in Nsd. rewrite <- Hc in Nc.
  rewrite <- Hf in Nf. rewrite <- Hm in Nm.
  repeat (split; [assumption|]). split; [|apply nan_color; exact Nm].
  destruct (H i _ (H0 i ki Eki)) as [r' [Hr' [Hp [Hmed [_ [Hoff _]]]]]].
  rewrite Hr in Hr'; inversion Hr'; subst r'; clear Hr'.
  rewrite Hoff. unfold pct_or. rewrite <- Hmed.
  rewrite (nan_eqb_l _ _ Nm). cbn [negb].
  apply nan_mul_l. apply nan_div_r. exact Nm.
Qed.

(** *** Witnesses *)

Lemma nan_price_spoils_the_window_witness :
  exists out,
    engine (scenario_C ++ [mkKline EmptyString nan]) (d_of_Q 1) 33 = Some out /\
    forall i r, 364 <= i -> 364 <= i <= 364 + 364 -> nth_error out i = Some r ->
      isnan (ma_365 r) = true /\ isnan (std_365 r) = true /\
      isnan (ceiling r) = true /\ isnan (floor r) = true /\
      isnan (median r) = true /\ isnan (offset r) = true /\
      row_color r = COLOR_DARK_RED.
Proof.
  apply (nan_price_spoils_the_window (scenario_C ++ [mkKline EmptyString nan])
           (d_of_Q 1) 33 364 (mkKline EmptyString nan)).
  - vm_compute. reflexivity.
  - vm_compute. reflexivity.
Defined.

(** ** The projector on the target day, on binary64 *)

(** Less than a whole day, in seconds, is no day. *)
Lemma quot_within_a_day (d : Z) :
  (Z.abs d < 86400)%Z -> Z.quot d 86400 = 0%Z.
Proof.
  intros H. pose proof (Z.quot_rem' d 86400) as E.
  pose proof (Z.rem_bound_abs d 86400 ltac:(lia)) as B.
  pose proof (Z.rem_sign_nz d 86400 ltac:(lia)) as S.
  destruct (Z.eq_dec (Z.rem d 86400) 0) as [R0|R0];
    try specialize (S R0); lia.
Qed.

(** A finite double times zero is a zero; an infinity or a NaN times zero is
    a NaN. *)
Lemma finite_times_zero (x : float) :
  isfinite x = true -> exists s, Prim2SF (x * 0) = S754_zero s.
Proof.
  unfold isfinite. rewrite mul_spec. change (Prim2SF 0) with (S754_zero false).
  destruct (Prim2SF x) as [s|s| |s m e]; try discriminate; intros _;
    eexists; reflexivity.
Qed.

Lemma not_finite_times_zero (x : float) :
  isfinite x = false -> isnan (x * 0)%float = true.
Proof.
  unfold isfinite. rewrite isnan_spec, mul_spec.
  change (Prim2SF 0) with (S754_zero false).
  destruct (Prim2SF x) as [s|s| |s m e]; try discriminate; intros _; reflexivity.
Qed.

(** Adding a zero to a double that is not a NaN gives a double equal to it. *)
Lemma plus_zero (b z : float) (s : bool) :
  isnan b = false -> Prim2SF z = S754_zero s -> PrimFloat.eqb (b + z) b = true.
Proof.
  intros Hb Hz. rewrite FloatAxioms.eqb_spec, add_spec, Hz.
  assert (Hn : Prim2SF b <> S754_nan).
  { intros E. apply isnan_spec in E. congruence. }
  destruct (Prim2SF b) as [[|]|[|]| |sb m e] eqn:Eb; try congruence;
    try (destruct s; reflexivity).
  unfold SF64add, SFadd. apply SFeqb_refl. discriminate.
Qed.

Section Binary64Projector.

Variable pow2 : float -> float.

(** X14. On binary64, when the clock is less than a whole day from the
    target date, the projector multiplies the drift by zero days: the 2025
    estimate then equals the baseline when the drift is finite and the
    baseline is not a NaN, and it is a NaN when the drift is an infinity or
    a NaN. *)
Theorem projection_on_the_target_day (g : Globals float)
  (rows : list (PiCycleData float)) (now_c end_2025_t : Z) :
  (Z.abs (end_2025_t - now_c) < 86400)%Z ->
  exists p,
    prediction_target_step (ops:=binary64 pow2) g rows now_c end_2025_t = Some p /\
    (isfinite (average_top_steps p) = true ->
     isnan (first_row_baseline g) = false ->
     PrimFloat.eqb (predicted_price_2025 p) (first_row_baseline g) = true) /\
    (isfinite (average_top_steps p) = false ->
     isnan (predicted_price_2025 p) = true).
Proof.
  intros Hday.
  destruct (prediction_target_step_full (ops:=binary64 pow2) g rows now_c end_2025_t)
    as [p [E [_ [_ H25]]]].
  exists p. split; [exact E|].
  rewrite H25, (quot_within_a_day _ Hday).
  change (d_of_Z (ops:=binary64 pow2) 0) with 0%float.
  cbn [d_add d_mul binary64]. split.
  - intros Hfin Hb. destruct (finite_times_zero _ Hfin) as [s Hs].
    exact (plus_zero _ _ s Hb Hs).
  - intros Hinf. apply nan_add_r. apply not_finite_times_zero. exact Hinf.
Qed.

End Binary64Projector.

(** Ten rows, an hour before the target time. *)
Lemma projection_on_the_target_day_witness :
  exists p,
    prediction_target_step (fst (display_public initial_globals ten_rows)) ten_rows
      0 3600 = Some p /\
    (isfinite (average_top_steps p) = true ->
     isnan (first_row_baseline (fst (display_public initial_globals ten_rows))) = false ->
     PrimFloat.eqb (predicted_price_2025 p)
       (first_row_baseline (fst (display_public initial_globals ten_rows))) = true) /\
    (isfinite (average_top_steps p) = false ->
     isnan (predicted_price_2025 p) = true).
Proof.
  apply (projection_on_the_target_day (fun x => x * x)%float
           (fst (display_public initial_globals ten_rows)) ten_rows 0 3600).
  vm_compute. reflexivity.
Defined.

(** ** Rows without a full window, on binary64 *)

Section Binary64Sentinel.

Variable pow2 : float -> float.

(** The colour of a row whose band is at the sentinel: the subtractions of
    zero, the absolute value and the comparisons with zero do not round. *)
Lemma color_sentinel_on_doubles (row : PiCycleData float) :
  median row = 0%float -> ceiling row = 0%float -> floor row = 0%float ->
  (PrimFloat.ltb 0 (price row) = true ->
   row_color (ops:=binary64 pow2) row = COLOR_DARK_GREEN) /\
  (PrimFloat.eqb (price row) 0 = true ->
   row_color (ops:=binary64 pow2) row = COLOR_YELLOW) /\
  (PrimFloat.ltb (price row) 0 = true ->
   row_color (ops:=binary64 pow2) row = COLOR_DARK_RED) /\
  (isnan (price row) = true ->
   row_color (ops:=binary64 pow2) row = COLOR_DARK_RED).
Proof.
  intros Hm Hc Hf. unfold row_color. rewrite Hm, Hc, Hf. cbv zeta.
  set (p := price row).
  change (d_of_Z (ops:=binary64 pow2) 0) with 0%float.
  change (@d_of_Q float (binary64 pow2) 0) with 0%float.
  cbn [d_leb d_ltb d_abs d_sub d_mul d_div binary64].
  change (0 * @d_of_Q float (binary64 pow2) 0.02)%float with 0%float.
  change (PrimFloat.ltb 0 (0 - 0)) with false. cbv iota.
  change (PrimFloat.leb (@d_of_Q float (binary64 pow2) 0.575) 0) with false.
  change (PrimFloat.leb (@d_of_Q float (binary64 pow2) 0.29) 0) with false.
  cbv iota.
  rewrite isnan_spec, FloatAxioms.eqb_spec, !leb_spec, !ltb_spec, abs_spec, sub_spec.
  change (Prim2SF 0) with (S754_zero false).
  destruct (Prim2SF p) as [[|]|[|]| |[|] m e]; cbn;
    repeat split; intros H; try discriminate H; reflexivity.
Qed.

(** X17. On binary64, whatever [std::pow(x, 2)] returns, a returned row
    without a full window ([i < 364]) has median and offset 0, and its
    colour depends on its price alone: dark green for a price above zero
    (an infinity included), yellow for a price equal to zero, dark red for a
    price below zero and for a NaN. *)
Theorem rows_without_history_on_doubles (klines : list (Kline float)) (ym : float)
  (ndd : nat) :
  exists out,
    engine (ops:=binary64 pow2) klines ym ndd = Some out /\
    forall i r, i < 364 -> nth_error out i = Some r ->
      median r = 0%float /\ offset r = 0%float /\
      (PrimFloat.ltb 0 (price r) = true ->
       row_color (ops:=binary64 pow2) r = COLOR_DARK_GREEN) /\
      (PrimFloat.eqb (price r) 0 = true ->
       row_color (ops:=binary64 pow2) r = COLOR_YELLOW) /\
      (PrimFloat.ltb (price r) 0 = true ->
       row_color (ops:=binary64 pow2) r = COLOR_DARK_RED) /\
      (isnan (price r) = true ->
       row_color (ops:=binary64 pow2) r = COLOR_DARK_RED).
Proof.
  destruct (price_projection_rows (ops:=binary64 pow2) klines ym) as [rows [E0 [L0 H0]]].
  destruct (derived_fields (ops:=binary64 pow2) rows ndd) as [out [E [L [_ H]]]].
  destruct (engine_bands (ops:=binary64 pow2) klines ym ndd)
    as [rows' [out' [E0' [E' [_ [_ Hb]]]]]].
  assert (Eo : engine (ops:=binary64 pow2) klines ym ndd = Some out)
    by (unfold engine; rewrite E0; exact E).
  rewrite Eo in E'. inversion E'; subst out'; clear E'.
  exists out. split; [exact Eo|].
  intros i r Hi Hr.
  destruct (Hb i r (or_intror Hr)) as [k [Ek [_ [_ [_ [Hc [Hf Hm]]]]]]].
  assert (E364 : (364 <=? i) = false) by (apply Nat.leb_gt; assumption).
  unfold stats_row in Hc, Hf, Hm. rewrite E364 in Hc, Hf, Hm.
  cbn in Hc, Hf, Hm.
  destruct (H i _ (H0 i k Ek)) as [r' [Hr' [_ [_ [_ [Hoff _]]]]]].
  rewrite Hr in Hr'; inversion Hr'; subst r'; clear Hr'.
  split; [exact Hm|]. split.
  - rewrite Hoff. unfold pct_or, stats_row. rewrite E364. reflexivity.
  - apply color_sentinel_on_doubles; assumption.
Qed.

End Binary64Sentinel.
